(** * sms-over-xmpp: the Component, its Gateway loop and its supervisor

    A shallow embedding of [component.go]: the [Component] struct, [Main]
    with its restart loop, [runGatewayProcess] with the dispatch loop of the
    gateway goroutine, [runHttpProcess] and [runXmppProcess].

    Goroutines and channels are modelled by an interleaving semantics: a
    state of the whole program and one transition per [select] case that can
    fire.  Unbuffered channels are queues of blocked senders. *)

From stdpp Require Import base gmap strings list pretty.
From Stdlib Require Import ZArith Lia.

Open Scope string_scope.
Open Scope list_scope.
Open Scope Z_scope.

(** ** Values of the program *)

(** Go's [error] values that matter here.  [ErrIgnoreMessage] is the package
    variable of line 15; it is compared by identity, so it is a constructor
    of its own.  A nil [error] is [None : option error]. *)
Inductive error :=
  | ErrIgnoreMessage
  | ErrOther (msg : string).

(** [err.Error()] *)
Definition Error (e : error) : string :=
  match e with
  | ErrIgnoreMessage => "ignore this message"
  | ErrOther msg => msg
  end.

#[global] Instance error_eq_dec : EqDecision error.
Proof. solve_decision. Defined.

(** [xco.Message], as far as the component looks at it: addressing, body and
    the two receipt flags. *)
Record Message := {
  mFrom : string;
  mTo : string;
  mBody : string;
  ReceiptRequest : bool;
  ReceiptAck : bool
}.

#[global] Instance Message_eq_dec : EqDecision Message.
Proof. solve_decision. Defined.

(** An SMS: sender number, recipient number, text. *)
Record Sms := {
  sFrom : string;
  sTo : string;
  sBody : string
}.

(** Channels are named by the order of their [make]; [0] is the nil channel
    (the zero value of a channel variable), on which nothing is ever ready. *)
Definition chan := nat.

(** The [rxSms] interface with its two implementations, and a third
    constructor for any other implementation ([default:] of the type
    switch, line 98).  Each value carries its reply channel. *)
Inductive rxSms :=
  | rxSmsMessage (sms : Sms) (errCh : chan)
  | rxSmsStatus (id : string) (status : Z) (errCh : chan)
  | rxSmsOther (errCh : chan).

(** [rxSms.ErrCh()] *)
Definition ErrCh (r : rxSms) : chan :=
  match r with
  | rxSmsMessage _ c => c
  | rxSmsStatus _ _ c => c
  | rxSmsOther c => c
  end.

(** The [Config] interface, as the values its methods return.
    [SmsProvider] returns a provider and an error, as in Go. *)
Record Config := {
  SmsProvider : string * option error;
  HttpHost : string;
  HttpPort : Z;
  CanHttpAuth : option (string * string);
  XmppHost : string;
  XmppPort : Z;
  ComponentName : string;
  SharedSecret : string
}.

(** [time.Second], in nanoseconds ([time.Duration] is an int64 count of
    nanoseconds). *)
Definition Second : Z := 1000000000.

(** ** What the program does that can be observed *)

Inductive fmtArg :=
  | ArgErr (e : error)
  | ArgInt (n : Z)
  | ArgRxSms (r : rxSms).

Inductive task := Gateway | Http | Xmpp.

#[global] Instance task_eq_dec : EqDecision task.
Proof. solve_decision. Defined.

Inductive action :=
  | LogPrintf (fmt : string) (args : list fmtArg)   (* log.Printf, and the print of log.Panicf *)
  | ChanSend (ch : chan) (v : option error)         (* errCh <- v *)
  | ChanClose (ch : chan)                           (* close(healthCh) *)
  | Sleep (d : Z)                                   (* time.Sleep(d) *)
  | Panicking (fmt : string) (args : list fmtArg)   (* panic(fmt.Sprintf(fmt, args...)) *)
  | Start (t : task) (healthCh : chan).             (* the task's goroutine is launched *)

(** How one turn of the gateway loop ends: the loop goes round again,
    the goroutine returns (line 105), or it panics (lines 96 and 99;
    [log.Panicf] prints to the log and then panics with the same text). *)
Inductive control := Continue | Return | Panic.

(** ** The methods of the Component that live in other files

    [sms2xmpp], [smsDelivered] and [xmpp2sms] are methods on [*Component];
    the dispatch loop only looks at the [error] they return.  They read and
    write the receipt table and talk to the collaborators (the provider, the
    outbound XMPP queue), whose state is [W].  The constant [smsDelivered]
    of the status type is declared next to them. *)
Record Store (W : Type) := mkStore {
  st_receiptFor : gmap string Message;
  st_world : W
}.
Arguments mkStore {W}.
Arguments st_receiptFor {W}.
Arguments st_world {W}.

Class Handlers (W : Type) := {
  smsDelivered : Z;
  sc_sms2xmpp : Sms → Store W → option error * Store W;
  sc_smsDelivered : string → Store W → option error * Store W;
  sc_xmpp2sms : Message → Store W → option error * Store W
}.

Section GatewayLoop.
Context {W : Type} `{handlers : Handlers W}.

(** [case rxSms := <-rxSmsCh:], lines 86-100. *)
Definition gatewayRxSms (ev : rxSms) (st : Store W) : Store W * list action * control :=
  let errCh := ErrCh ev in
  match ev with
  | rxSmsMessage sms _ =>
      let '(r, st') := sc_sms2xmpp sms st in
      (st', [ChanSend errCh r], Continue)
  | rxSmsStatus id status _ =>
      if decide (status = smsDelivered) then
        let '(r, st') := sc_smsDelivered id st in
        (st', [ChanSend errCh r], Continue)
      else
        (st, [LogPrintf "unexpected SMS status: %d" [ArgInt status];
              Panicking "unexpected SMS status: %d" [ArgInt status]], Panic)
  | rxSmsOther _ =>
      (st, [LogPrintf "unexpected rxSms type: %#v" [ArgRxSms ev];
            Panicking "unexpected rxSms type: %#v" [ArgRxSms ev]], Panic)
  end.

(** [case msg := <-rxXmppCh:], lines 101-107. *)
Definition gatewayRxXmpp (msg : Message) (st : Store W) : Store W * list action * control :=
  let '(err, st') := sc_xmpp2sms msg st in
  match err with
  | Some e => (st', [LogPrintf "ERROR: converting XMPP to SMS: %s" [ArgErr e]], Return)
  | None => (st', [], Continue)
  end.
End GatewayLoop.

(** ** The Component and the running program *)

(** [type Component struct], lines 18-44.  The three channels are held by
    name; [receiptForMutex] is [true] while locked. *)
Record Component := {
  config : Config;
  receiptFor : gmap string Message;
  receiptForMutex : bool;
  rxSmsCh : chan;
  rxXmppCh : chan;
  txXmppCh : chan
}.

Definition with_receiptFor (x : gmap string Message) (c : Component) : Component :=
  {| config := config c; receiptFor := x; receiptForMutex := receiptForMutex c;
     rxSmsCh := rxSmsCh c; rxXmppCh := rxXmppCh c; txXmppCh := txXmppCh c |}.
Definition with_rxSmsCh (x : chan) (c : Component) : Component :=
  {| config := config c; receiptFor := receiptFor c; receiptForMutex := receiptForMutex c;
     rxSmsCh := x; rxXmppCh := rxXmppCh c; txXmppCh := txXmppCh c |}.
Definition with_rxXmppCh (x : chan) (c : Component) : Component :=
  {| config := config c; receiptFor := receiptFor c; receiptForMutex := receiptForMutex c;
     rxSmsCh := rxSmsCh c; rxXmppCh := x; txXmppCh := txXmppCh c |}.
Definition with_txXmppCh (x : chan) (c : Component) : Component :=
  {| config := config c; receiptFor := receiptFor c; receiptForMutex := receiptForMutex c;
     rxSmsCh := rxSmsCh c; rxXmppCh := rxXmppCh c; txXmppCh := x |}.

(** The goroutine launched by [runGatewayProcess]: the channel it closes
    when it ends and the two channels it was passed (line 109). *)
Record gatewayProc := {
  g_healthCh : chan;
  g_rxSmsCh : chan;
  g_rxXmppCh : chan
}.

(** [&xmppProcess{...}], lines 139-147, with the health channel [run] gave it. *)
Record xmppProcess := {
  x_host : string;
  x_port : Z;
  x_name : string;
  x_secret : string;
  gatewayTx : chan;
  gatewayRx : chan;
  x_healthCh : chan
}.

(** [&httpProcess{...}], lines 124-133, with the health channel [run] gave it. *)
Record httpProcess := {
  h_host : string;
  h_port : Z;
  h_provider : string;
  h_rxSmsCh : chan;
  h_auth : option (string * string);
  h_healthCh : chan
}.

Section Program.
Context {W : Type} `{handlers : Handlers W}.

(** The state of the whole program: the one Component [sc] that [Main] and
    every goroutine share, the collaborators' state, the three locals of
    [Main], and the Go runtime: the next channel to be made, the closed
    channels, the senders blocked on each channel in arrival order, the
    goroutines that run, and what has been observed so far. *)
Record Sys := {
  sc : Component;
  world : W;
  gatewayDead : chan;
  xmppDead : chan;
  httpDead : chan;
  nextCh : chan;
  closed : gset chan;
  smsQ : gmap chan (list rxSms);
  xmppQ : gmap chan (list Message);
  errQ : gmap chan (list (option error));
  gateways : list gatewayProc;
  xmpps : list xmppProcess;
  https : list httpProcess;
  trace : list action
}.

Definition set_sc (x : Component) (s : Sys) : Sys :=
  {| sc := x; world := world s; gatewayDead := gatewayDead s; xmppDead := xmppDead s;
     httpDead := httpDead s; nextCh := nextCh s; closed := closed s; smsQ := smsQ s;
     xmppQ := xmppQ s; errQ := errQ s; gateways := gateways s; xmpps := xmpps s;
     https := https s; trace := trace s |}.
Definition set_world (x : W) (s : Sys) : Sys :=
  {| sc := sc s; world := x; gatewayDead := gatewayDead s; xmppDead := xmppDead s;
     httpDead := httpDead s; nextCh := nextCh s; closed := closed s; smsQ := smsQ s;
     xmppQ := xmppQ s; errQ := errQ s; gateways := gateways s; xmpps := xmpps s;
     https := https s; trace := trace s |}.
Definition set_gatewayDead (x : chan) (s : Sys) : Sys :=
  {| sc := sc s; world := world s; gatewayDead := x; xmppDead := xmppDead s;
     httpDead := httpDead s; nextCh := nextCh s; closed := closed s; smsQ := smsQ s;
     xmppQ := xmppQ s; errQ := errQ s; gateways := gateways s; xmpps := xmpps s;
     https := https s; trace := trace s |}.
Definition set_xmppDead (x : chan) (s : Sys) : Sys :=
  {| sc := sc s; world := world s; gatewayDead := gatewayDead s; xmppDead := x;
     httpDead := httpDead s; nextCh := nextCh s; closed := closed s; smsQ := smsQ s;
     xmppQ := xmppQ s; errQ := errQ s; gateways := gateways s; xmpps := xmpps s;
     https := https s; trace := trace s |}.
Definition set_httpDead (x : chan) (s : Sys) : Sys :=
  {| sc := sc s; world := world s; gatewayDead := gatewayDead s; xmppDead := xmppDead s;
     httpDead := x; nextCh := nextCh s; closed := closed s; smsQ := smsQ s;
     xmppQ := xmppQ s; errQ := errQ s; gateways := gateways s; xmpps := xmpps s;
     https := https s; trace := trace s |}.
Definition set_nextCh (x : chan) (s : Sys) : Sys :=
  {| sc := sc s; world := world s; gatewayDead := gatewayDead s; xmppDead := xmppDead s;
     httpDead := httpDead s; nextCh := x; closed := closed s; smsQ := smsQ s;
     xmppQ := xmppQ s; errQ := errQ s; gateways := gateways s; xmpps := xmpps s;
     https := https s; trace := trace s |}.
Definition set_closed (x : gset chan) (s : Sys) : Sys :=
  {| sc := sc s; world := world s; gatewayDead := gatewayDead s; xmppDead := xmppDead s;
     httpDead := httpDead s; nextCh := nextCh s; closed := x; smsQ := smsQ s;
     xmppQ := xmppQ s; errQ := errQ s; gateways := gateways s; xmpps := xmpps s;
     https := https s; trace := trace s |}.
Definition set_smsQ (x : gmap chan (list rxSms)) (s : Sys) : Sys :=
  {| sc := sc s; world := world s; gatewayDead := gatewayDead s; xmppDead := xmppDead s;
     httpDead := httpDead s; nextCh := nextCh s; closed := closed s; smsQ := x;
     xmppQ := xmppQ s; errQ := errQ s; gateways := gateways s; xmpps := xmpps s;
     https := https s; trace := trace s |}.
Definition set_xmppQ (x : gmap chan (list Message)) (s : Sys) : Sys :=
  {| sc := sc s; world := world s; gatewayDead := gatewayDead s; xmppDead := xmppDead s;
     httpDead := httpDead s; nextCh := nextCh s; closed := closed s; smsQ := smsQ s;
     xmppQ := x; errQ := errQ s; gateways := gateways s; xmpps := xmpps s;
     https := https s; trace := trace s |}.
Definition set_errQ (x : gmap chan (list (option error))) (s : Sys) : Sys :=
  {| sc := sc s; world := world s; gatewayDead := gatewayDead s; xmppDead := xmppDead s;
     httpDead := httpDead s; nextCh := nextCh s; closed := closed s; smsQ := smsQ s;
     xmppQ := xmppQ s; errQ := x; gateways := gateways s; xmpps := xmpps s;
     https := https s; trace := trace s |}.
Definition set_gateways (x : list gatewayProc) (s : Sys) : Sys :=
  {| sc := sc s; world := world s; gatewayDead := gatewayDead s; xmppDead := xmppDead s;
     httpDead := httpDead s; nextCh := nextCh s; closed := closed s; smsQ := smsQ s;
     xmppQ := xmppQ s; errQ := errQ s; gateways := x; xmpps := xmpps s;
     https := https s; trace := trace s |}.
Definition set_xmpps (x : list xmppProcess) (s : Sys) : Sys :=
  {| sc := sc s; world := world s; gatewayDead := gatewayDead s; xmppDead := xmppDead s;
     httpDead := httpDead s; nextCh := nextCh s; closed := closed s; smsQ := smsQ s;
     xmppQ := xmppQ s; errQ := errQ s; gateways := gateways s; xmpps := x;
     https := https s; trace := trace s |}.
Definition set_https (x : list httpProcess) (s : Sys) : Sys :=
  {| sc := sc s; world := world s; gatewayDead := gatewayDead s; xmppDead := xmppDead s;
     httpDead := httpDead s; nextCh := nextCh s; closed := closed s; smsQ := smsQ s;
     xmppQ := xmppQ s; errQ := errQ s; gateways := gateways s; xmpps := xmpps s;
     https := x; trace := trace s |}.
Definition set_trace (x : list action) (s : Sys) : Sys :=
  {| sc := sc s; world := world s; gatewayDead := gatewayDead s; xmppDead := xmppDead s;
     httpDead := httpDead s; nextCh := nextCh s; closed := closed s; smsQ := smsQ s;
     xmppQ := xmppQ s; errQ := errQ s; gateways := gateways s; xmpps := xmpps s;
     https := https s; trace := x |}.

(** A Go program either runs or has been terminated by a panic that no
    goroutine recovered: there is no [recover] in the program, so a panic
    in any goroutine ends the process once its deferred calls have run. *)
Inductive result (A : Type) :=
  | Ok (a : A) (s : Sys)
  | Panicked (s : Sys).
Arguments Ok {A}.
Arguments Panicked {A}.

Definition M (A : Type) : Type := Sys → result A.

Definition ret {A} (a : A) : M A := λ s, Ok a s.

Definition bind {A B} (m : M A) (k : A → M B) : M B :=
  λ s, match m s with
       | Ok a s' => k a s'
       | Panicked s' => Panicked s'
       end.

Notation "x <- m ;; k" := (bind m (λ x, k))
  (at level 100, m at next level, right associativity).
Notation "m ;;; k" := (bind m (λ _, k))
  (at level 100, right associativity).

Definition get {A} (f : Sys → A) : M A := λ s, Ok (f s) s.
Definition modify (f : Sys → Sys) : M unit := λ s, Ok tt (f s).
Definition emit (a : action) : M unit := modify (λ s, set_trace (trace s ++ [a]) s).

(** [panic(v)] in the calling goroutine. *)
Definition panic {A} : M A := λ s, Panicked s.

(** [make(chan T)] *)
Definition makeChan : M chan :=
  λ s, Ok (nextCh s) (set_nextCh (S (nextCh s)) s).

(** [close(ch)] *)
Definition closeChan (ch : chan) : M unit :=
  modify (λ s, set_closed ({[ch]} ∪ closed s) s) ;;;
  emit (ChanClose ch).

(** *** Starting the three tasks *)

(** [runGatewayProcess], lines 79-111: a fresh health channel, and a
    goroutine over [sc.rxSmsCh] and [sc.rxXmppCh] as they are at the call.
    Nothing else of the Component is touched. *)
Definition runGatewayProcess : M chan :=
  healthCh <- makeChan ;;
  rx <- get (λ s, rxSmsCh (sc s)) ;;
  rxx <- get (λ s, rxXmppCh (sc s)) ;;
  modify (λ s, set_gateways
    (gateways s ++ [{| g_healthCh := healthCh; g_rxSmsCh := rx; g_rxXmppCh := rxx |}]) s) ;;;
  emit (Start Gateway healthCh) ;;;
  ret healthCh.

(** Modelled from the spec: [xmppProcess.run], which is not in
    [component.go].  The spec (4.1) has each task expose a termination
    signal; [run] launches the task and returns that channel. *)
Definition xmpp_run (x : chan → xmppProcess) : M chan :=
  healthCh <- makeChan ;;
  modify (λ s, set_xmpps (xmpps s ++ [x healthCh]) s) ;;;
  emit (Start Xmpp healthCh) ;;;
  ret healthCh.

(** Modelled from the spec: [httpProcess.run], which is not in
    [component.go]; as [xmpp_run]. *)
Definition http_run (h : chan → httpProcess) : M chan :=
  healthCh <- makeChan ;;
  modify (λ s, set_https (https s ++ [h healthCh]) s) ;;;
  emit (Start Http healthCh) ;;;
  ret healthCh.

(** [runHttpProcess], lines 114-135. *)
Definition runHttpProcess : M chan :=
  config <- get (λ s, config (sc s)) ;;
  let '(provider, err) := SmsProvider config in
  match err with
  | Some e =>
      emit (Panicking "Couldn't choose an SMS provider: %s" [ArgErr e]) ;;;
      panic
  | None =>
      rx <- get (λ s, rxSmsCh (sc s)) ;;
      http_run (λ healthCh,
        {| h_host := HttpHost config; h_port := HttpPort config;
           h_provider := provider; h_rxSmsCh := rx;
           h_auth := CanHttpAuth config; h_healthCh := healthCh |})
  end.

(** [runXmppProcess], lines 138-149. *)
Definition runXmppProcess : M chan :=
  c <- get sc ;;
  xmpp_run (λ healthCh,
    {| x_host := XmppHost (config c); x_port := XmppPort (config c);
       x_name := ComponentName (config c); x_secret := SharedSecret (config c);
       gatewayTx := txXmppCh c; gatewayRx := rxXmppCh c;
       x_healthCh := healthCh |}).

(** *** Main *)

(** The program before [Main] has run a line: the Component of line 50 with
    every field but [config] at its zero value, no channel made yet. *)
Definition boot (config : Config) (w : W) : Sys :=
  {| sc := {| config := config; receiptFor := ∅; receiptForMutex := false;
              rxSmsCh := 0%nat; rxXmppCh := 0%nat; txXmppCh := 0%nat |};
     world := w;
     gatewayDead := 0%nat; xmppDead := 0%nat; httpDead := 0%nat;
     nextCh := 1%nat; closed := ∅;
     smsQ := ∅; xmppQ := ∅; errQ := ∅;
     gateways := []; xmpps := []; https := [];
     trace := [] |}.

(** Lines 50-59 of [Main]: up to the [for]. *)
Definition Main_init : M unit :=
  modify (λ s, set_sc (with_receiptFor ∅ (sc s)) s) ;;;
  c1 <- makeChan ;;
  modify (λ s, set_sc (with_rxSmsCh c1 (sc s)) s) ;;;
  c2 <- makeChan ;;
  modify (λ s, set_sc (with_rxXmppCh c2 (sc s)) s) ;;;
  c3 <- makeChan ;;
  modify (λ s, set_sc (with_txXmppCh c3 (sc s)) s) ;;;
  g <- runGatewayProcess ;;
  modify (set_gatewayDead g) ;;;
  x <- runXmppProcess ;;
  modify (set_xmppDead x) ;;;
  h <- runHttpProcess ;;
  modify (set_httpDead h).

Definition Main (config : Config) (w : W) : result unit :=
  Main_init (boot config w).

(** The three cases of the [select] of lines 62-73; each is the body that
    runs once its channel is ready. *)
Definition Main_gatewayDead : M unit :=
  emit (LogPrintf "Gateway died. Restarting" []) ;;;
  g <- runGatewayProcess ;;
  modify (set_gatewayDead g).

Definition Main_httpDead : M unit :=
  emit (LogPrintf "HTTP died. Restarting" []) ;;;
  h <- runHttpProcess ;;
  modify (set_httpDead h).

Definition Main_xmppDead : M unit :=
  emit (LogPrintf "XMPP died. Restarting" []) ;;;
  emit (Sleep (1 * Second)) ;;;
  x <- runXmppProcess ;;
  modify (set_xmppDead x).

(** *** Channels with blocked senders *)

Definition enqueue {A} (ch : chan) (v : A) (q : gmap chan (list A)) : gmap chan (list A) :=
  <[ch := default [] (q !! ch) ++ [v]]> q.

Definition dequeue {A} (ch : chan) (q : gmap chan (list A)) : option (A * gmap chan (list A)) :=
  match q !! ch with
  | Some (v :: rest) => Some (v, <[ch := rest]> q)
  | _ => None
  end.

(** *** The gateway goroutine *)

(** What the methods of the Component see of the program, and back. *)
Definition store (s : Sys) : Store W :=
  mkStore (receiptFor (sc s)) (world s).

Definition put_store (st : Store W) (s : Sys) : Sys :=
  set_world (st_world st) (set_sc (with_receiptFor (st_receiptFor st) (sc s)) s).

(** An action takes place.  A send on a reply channel leaves the value
    for the receiver; whether the sender then waits for the receiver
    depends on the buffer of the channel, which is chosen where the channel
    is made, outside this file: the loop is let go on. *)
Definition perform (a : action) : M unit :=
  match a with
  | ChanSend ch v => modify (λ s, set_errQ (enqueue ch v (errQ s)) s) ;;; emit a
  | _ => emit a
  end.

Fixpoint perform_all (l : list action) : M unit :=
  match l with
  | [] => ret tt
  | a :: l' => perform a ;;; perform_all l'
  end.

(** The goroutine ends: the deferred [close(healthCh)] of line 82 runs, on
    a return and on a panic alike. *)
Definition gateway_exit (g : gatewayProc) : M unit :=
  closeChan (g_healthCh g) ;;;
  modify (λ s, set_gateways
    (filter (λ g', g_healthCh g' ≠ g_healthCh g) (gateways s)) s).

(** One turn of the [for] of line 84, after the [select] has received. *)
Definition gateway_turn (g : gatewayProc) (r : Store W * list action * control) : M unit :=
  let '(st', acts, c) := r in
  modify (put_store st') ;;;
  perform_all acts ;;;
  match c with
  | Continue => ret tt
  | Return => gateway_exit g
  | Panic => gateway_exit g ;;; panic
  end.

Definition find_gateway (h : chan) (s : Sys) : option gatewayProc :=
  list_find (λ g, g_healthCh g = h) (gateways s) ≫= λ ig, Some ig.2.

Definition find_xmpp (h : chan) (s : Sys) : option xmppProcess :=
  list_find (λ x, x_healthCh x = h) (xmpps s) ≫= λ ix, Some ix.2.

Definition find_http (h : chan) (s : Sys) : option httpProcess :=
  list_find (λ p, h_healthCh p = h) (https s) ≫= λ ip, Some ip.2.

(** *** The transitions of the program *)

(** What a handler of the SMS Boundary has to report. *)
Inductive smsEvent :=
  | EvMessage (sms : Sms)
  | EvStatus (id : string) (status : Z)
  | EvOther.

Definition mkRxSms (e : smsEvent) (errCh : chan) : rxSms :=
  match e with
  | EvMessage sms => rxSmsMessage sms errCh
  | EvStatus id status => rxSmsStatus id status errCh
  | EvOther => rxSmsOther errCh
  end.

Inductive label :=
  (* the gateway goroutine with health channel [h]: a case of its select fires *)
  | GwRecvSms (h : chan)
  | GwRecvXmpp (h : chan)
  (* Main: a case of its select fires *)
  | MainGateway
  | MainHttp
  | MainXmpp
  (* the two boundary tasks *)
  | HttpSend (h : chan) (e : smsEvent)
  | HttpRecvErr (errCh : chan)
  | XmppSend (h : chan) (m : Message)
  | HttpDies (h : chan)
  | XmppDies (h : chan).

(** A receive from a closed channel is ready; from an open health channel
    (nothing is ever sent on one) or the nil channel it is not. *)
Definition main_select (ch : Sys → chan) (body : M unit) (s : Sys) : option (result unit) :=
  if decide (ch s ∈ closed s) then Some (body s) else None.

(** [step l s] is [None] when [l] cannot fire in [s].

    The boundary transitions are modelled from the spec (their code is in
    other files): a handler of a running HTTP task makes a single-use reply
    channel, blocks handing its event to the Gateway on the task's
    [rxSmsCh], and then waits for the outcome on the reply channel (spec 3
    and 5); a running XMPP task blocks handing an incoming message to the
    Gateway on its [gatewayRx]; a boundary task that ends closes its health
    channel (4.1). *)
Definition step (l : label) (s : Sys) : option (result unit) :=
  match l with
  | GwRecvSms h =>
      g ← find_gateway h s;
      '(ev, q) ← dequeue (g_rxSmsCh g) (smsQ s);
      let s1 := set_smsQ q s in
      Some (gateway_turn g (gatewayRxSms ev (store s1)) s1)
  | GwRecvXmpp h =>
      g ← find_gateway h s;
      '(msg, q) ← dequeue (g_rxXmppCh g) (xmppQ s);
      let s1 := set_xmppQ q s in
      Some (gateway_turn g (gatewayRxXmpp msg (store s1)) s1)
  | MainGateway => main_select gatewayDead Main_gatewayDead s
  | MainHttp => main_select httpDead Main_httpDead s
  | MainXmpp => main_select xmppDead Main_xmppDead s
  | HttpSend h e =>
      p ← find_http h s;
      Some ((errCh <- makeChan ;;
             modify (λ s, set_smsQ (enqueue (h_rxSmsCh p) (mkRxSms e errCh) (smsQ s)) s)) s)
  | HttpRecvErr errCh =>
      '(_, q) ← dequeue errCh (errQ s);
      Some (Ok tt (set_errQ q s))
  | XmppSend h m =>
      x ← find_xmpp h s;
      Some (Ok tt (set_xmppQ (enqueue (gatewayRx x) m (xmppQ s)) s))
  | HttpDies h =>
      p ← find_http h s;
      Some ((closeChan h ;;;
             modify (λ s, set_https (filter (λ p', h_healthCh p' ≠ h) (https s)) s)) s)
  | XmppDies h =>
      x ← find_xmpp h s;
      Some ((closeChan h ;;;
             modify (λ s, set_xmpps (filter (λ x', x_healthCh x' ≠ h) (xmpps s)) s)) s)
  end.

(** A program that a panic has ended takes no further step. *)
Definition step_proc (l : label) (p : result unit) : option (result unit) :=
  match p with
  | Ok _ s => step l s
  | Panicked _ => None
  end.

Fixpoint run (ls : list label) (p : result unit) : option (result unit) :=
  match ls with
  | [] => Some p
  | l :: ls' => p' ← step_proc l p; run ls' p'
  end.

(** The states of the program that [Main] can get to. *)
Inductive reachable (config : Config) (w : W) : result unit → Prop :=
  | reach_Main : reachable config w (Main config w)
  | reach_step l s p :
      reachable config w (Ok tt s) → step l s = Some p → reachable config w p.

End Program.

Arguments Sys W : clear implicits.
Arguments result W A : clear implicits.
Arguments Ok {W A}.
Arguments Panicked {W A}.
Arguments M W A : clear implicits.

(** ** The shape of the states that can be reached *)

Section Invariant.
Context {W : Type} `{handlers : Handlers W}.

(** The reply channels on which an outcome has been posted, oldest first. *)
Definition posted (t : list action) : list chan :=
  omap (λ a, match a with ChanSend ch _ => Some ch | _ => None end) t.

(** The events whose senders are blocked on the channel made first, which
    is [sc.rxSmsCh]. *)
Definition pending (s : Sys W) : list rxSms := default [] (smsQ s !! (1%nat : chan)).

(** Every reachable state has this shape: the three channels of the
    Component are the first three made; each task has at most one
    incarnation, which runs exactly when the health channel [Main] watches
    is open and which holds the Component's channels; the events waiting
    for the Gateway carry distinct reply channels on which nothing has been
    posted. *)
Record wf (cfg : Config) (s : Sys W) : Prop := {
  wf_config : config (sc s) = cfg;
  wf_provider : (SmsProvider cfg).2 = None;
  wf_rxSmsCh : rxSmsCh (sc s) = 1%nat;
  wf_rxXmppCh : rxXmppCh (sc s) = 2%nat;
  wf_txXmppCh : txXmppCh (sc s) = 3%nat;
  wf_nextCh : (3 < nextCh s)%nat;
  wf_closed : ∀ c, c ∈ closed s → (3 < c < nextCh s)%nat;
  wf_gateway :
    (3 < gatewayDead s < nextCh s)%nat ∧
    if decide (gatewayDead s ∈ closed s) then gateways s = []
    else gateways s = [{| g_healthCh := gatewayDead s; g_rxSmsCh := 1%nat; g_rxXmppCh := 2%nat |}];
  wf_xmpp :
    (3 < xmppDead s < nextCh s)%nat ∧
    if decide (xmppDead s ∈ closed s) then xmpps s = []
    else ∃ x, xmpps s = [x] ∧ x_healthCh x = xmppDead s
              ∧ gatewayTx x = 3%nat ∧ gatewayRx x = 2%nat;
  wf_http :
    (3 < httpDead s < nextCh s)%nat ∧
    if decide (httpDead s ∈ closed s) then https s = []
    else ∃ p, https s = [p] ∧ h_healthCh p = httpDead s ∧ h_rxSmsCh p = 1%nat;
  wf_distinct : gatewayDead s ≠ xmppDead s ∧ gatewayDead s ≠ httpDead s ∧ xmppDead s ≠ httpDead s;
  wf_smsQ : ∀ c, c ≠ 1%nat → smsQ s !! c = None;
  wf_pending_nodup : NoDup (ErrCh <$> pending s);
  wf_pending : Forall (λ ev, (ErrCh ev < nextCh s)%nat ∧ errQ s !! ErrCh ev = None) (pending s);
  wf_errQ : ∀ c, is_Some (errQ s !! c) → (c < nextCh s)%nat;
  wf_unposted : Forall (λ ev, ErrCh ev ∉ posted (trace s)) (pending s);
  wf_posted_nodup : NoDup (posted (trace s));
  wf_posted : ∀ c, c ∈ posted (trace s) → (c < nextCh s)%nat
}.

End Invariant.

(** ** The translations, from the spec

    [sms2xmpp], [smsDelivered] and [xmpp2sms] are called by the dispatch
    loop but are not in [component.go]; for the properties of the receipt
    table they are given here as the spec describes them. *)

(** What has happened to outbound SMS, oldest first: a send that the
    provider accepted under a tracking identifier, with the XMPP message it
    came from, and a Delivered status seen for an identifier. *)
Inductive hevent :=
  | SmsSent (id : string) (origin : Message)
  | StatusDelivered (id : string).

(** The collaborators' state: the messages handed to the XMPP Boundary's
    outbound queue in order, the state [P] of the SMS provider, and the
    history above. *)
Record World (P : Type) := mkWorld {
  outbound : list Message;
  provider : P;
  history : list hevent
}.
Arguments mkWorld {P}.
Arguments outbound {P}.
Arguments provider {P}.
Arguments history {P}.

(** The capabilities the core consumes (spec 4.4 and 6): the address
    mappings of the configuration and the provider's [send]. *)
Class Collaborators (P : Type) := {
  Delivered : Z;
  PhoneToAddress : string → error + string;
  AddressToPhone : string → error + string;
  send : Sms → P → (error + string) * P
}.

Section SpecModel.
Context {P : Type} `{collab : Collaborators P}.

(** The receipt acknowledgment for [m], addressed back to its sender. *)
Definition receipt_for (m : Message) : Message :=
  {| mFrom := mTo m; mTo := mFrom m; mBody := "";
     ReceiptRequest := false; ReceiptAck := true |}.

(** Modelled from the spec: [Component.sms2xmpp] (dispatch rule 1 of 4.2):
    map both phone numbers to XMPP addresses, forward the message with the
    body as it is to the outbound queue, and return the outcome. *)
Definition spec_sms2xmpp (sms : Sms) (st : Store (World P)) : option error * Store (World P) :=
  match PhoneToAddress (sFrom sms), PhoneToAddress (sTo sms) with
  | inl e, _ => (Some e, st)
  | _, inl e => (Some e, st)
  | inr from, inr to =>
      let m := {| mFrom := from; mTo := to; mBody := sBody sms;
                  ReceiptRequest := false; ReceiptAck := false |} in
      let w := st_world st in
      (None, mkStore (st_receiptFor st)
               (mkWorld (outbound w ++ [m]) (provider w) (history w)))
  end.

(** Modelled from the spec: [Component.smsDelivered] (dispatch rule 2 of
    4.2, [takeIfPresent] of 4.3): if the identifier is in the table, remove
    the entry and forward the stored receipt; success either way. *)
Definition spec_smsDelivered (id : string) (st : Store (World P)) : option error * Store (World P) :=
  let w := st_world st in
  let h := history w ++ [StatusDelivered id] in
  match st_receiptFor st !! id with
  | Some r =>
      (None, mkStore (delete id (st_receiptFor st))
               (mkWorld (outbound w ++ [r]) (provider w) h))
  | None =>
      (None, mkStore (st_receiptFor st) (mkWorld (outbound w) (provider w) h))
  end.

(** Modelled from the spec: the ignore outcome (dispatch rule 3 of 4.2 and
    the taxonomy of 7) is no error: the message is one the translation
    filters, and the dispatch loop is told nil. *)
Definition drop_ignored (e : error) : option error :=
  if decide (e = ErrIgnoreMessage) then None else Some e.

(** Modelled from the spec: [Component.xmpp2sms] (dispatch rule 3 of 4.2,
    [put] of 4.3): map the addresses back to phone numbers, send the body
    as it is; an error of either step is the result, unless it is the
    ignore outcome, which is dropped.  A message whose address the mapping
    says to ignore is treated as if it had not arrived.  When the send
    succeeded with a tracking identifier and the message asked for a
    receipt, the receipt is stored under the identifier. *)
Definition spec_xmpp2sms (m : Message) (st : Store (World P)) : option error * Store (World P) :=
  match AddressToPhone (mFrom m), AddressToPhone (mTo m) with
  | inl e, _ => (drop_ignored e, st)
  | _, inl e => (drop_ignored e, st)
  | inr from, inr to =>
      let w := st_world st in
      match send {| sFrom := from; sTo := to; sBody := mBody m |} (provider w) with
      | (inl e, p') =>
          (drop_ignored e, mkStore (st_receiptFor st) (mkWorld (outbound w) p' (history w)))
      | (inr id, p') =>
          let tbl := if ReceiptRequest m
                     then <[id := receipt_for m]> (st_receiptFor st)
                     else st_receiptFor st in
          (None, mkStore tbl (mkWorld (outbound w) p' (history w ++ [SmsSent id m])))
      end
  end.

#[local] Instance spec_handlers : Handlers (World P) := {|
  smsDelivered := Delivered;
  sc_sms2xmpp := spec_sms2xmpp;
  sc_smsDelivered := spec_smsDelivered;
  sc_xmpp2sms := spec_xmpp2sms
|}.



End SpecModel.

(** ** The receipt table under concurrent use, from the spec *)

(** The two operations of the table (spec 4.3). *)
Inductive table_op :=
  | put (id : string) (m : Message)
  | takeIfPresent (id : string).

(** What an operation does when nothing else runs. *)
Definition apply_op (o : table_op) (tbl : gmap string Message)
  : option Message * gmap string Message :=
  match o with
  | put id m => (None, <[id := m]> tbl)
  | takeIfPresent id => (tbl !! id, delete id tbl)
  end.

(** Where an activity is in its operation. *)
Inductive stage :=
  | Idle
  | Locked
  | Found (r : option Message)
  | Mutated (r : option Message)
  | Finished (r : option Message).

Record activity := mkActivity {
  act_op : table_op;
  act_stage : stage
}.

(** The table, its mutex with the activity that holds it, and the
    activities. *)
Record shared := mkShared {
  sh_table : gmap string Message;
  sh_mutex : option nat;
  sh_acts : list activity
}.

(** Modelled from the spec: the bodies of [put] and [takeIfPresent], which
    are not in [component.go]; only the fields [receiptFor] and
    [receiptForMutex] are.  The table uses its own mutual exclusion (spec
    5): an operation locks the mutex, works on the map one access at a
    time, and unlocks.  [act_step i st] is one such access by activity [i];
    it is [None] when the activity is blocked on the mutex or has
    finished. *)
Definition act_step (i : nat) (st : shared) : option shared :=
  a ← sh_acts st !! i;
  let continue tbl mu stg :=
    Some (mkShared tbl mu (<[i := mkActivity (act_op a) stg]> (sh_acts st))) in
  match act_stage a, act_op a with
  | Idle, _ =>
      match sh_mutex st with
      | None => continue (sh_table st) (Some i) Locked
      | Some _ => None
      end
  | Locked, put id m => continue (<[id := m]> (sh_table st)) (sh_mutex st) (Mutated None)
  | Locked, takeIfPresent id => continue (sh_table st) (sh_mutex st) (Found (sh_table st !! id))
  | Found r, takeIfPresent id =>
      continue (match r with Some _ => delete id (sh_table st) | None => sh_table st end)
               (sh_mutex st) (Mutated r)
  | Found _, put _ _ => None
  | Mutated r, _ => continue (sh_table st) None (Finished r)
  | Finished _, _ => None
  end.

Fixpoint act_run (sch : list nat) (st : shared) : option shared :=
  match sch with
  | [] => Some st
  | i :: sch' => st' ← act_step i st; act_run sch' st'
  end.

Definition start (tbl : gmap string Message) (ops : list table_op) : shared :=
  mkShared tbl None ((λ o, mkActivity o Idle) <$> ops).

(** The operations as indivisible steps: each activity does its whole
    operation at once, and at most once. *)
Definition atomic := (gmap string Message * list (table_op * option (option Message)))%type.

Definition atomic_step (i : nat) (st : atomic) : option atomic :=
  match st.2 !! i with
  | Some (o, None) =>
      let '(r, tbl) := apply_op o st.1 in
      Some (tbl, <[i := (o, Some r)]> st.2)
  | _ => None
  end.

Fixpoint atomic_run (sch : list nat) (st : atomic) : option atomic :=
  match sch with
  | [] => Some st
  | i :: sch' => st' ← atomic_step i st; atomic_run sch' st'
  end.

(** An activity has done its operation once it has changed the map. *)
Definition outcome (s : stage) : option (option Message) :=
  match s with
  | Mutated r | Finished r => Some r
  | _ => None
  end.

Definition abstract (st : shared) : atomic :=
  (sh_table st, (λ a, (act_op a, outcome (act_stage a))) <$> sh_acts st).

Definition critical (s : stage) : Prop :=
  match s with
  | Locked | Found _ | Mutated _ => True
  | _ => False
  end.

(** Mutual exclusion, and what the holder of the mutex has read is still
    in the map. *)
Record excl (st : shared) : Prop := {
  excl_holder : ∀ i a, sh_acts st !! i = Some a →
                  (critical (act_stage a) ↔ sh_mutex st = Some i);
  excl_found : ∀ i a r, sh_acts st !! i = Some a → act_stage a = Found r →
                  ∃ id, act_op a = takeIfPresent id ∧ r = sh_table st !! id;
  excl_range : ∀ j, sh_mutex st = Some j → is_Some (sh_acts st !! j)
}.

Definition finished (s : stage) : Prop :=
  match s with
  | Finished _ => True
  | _ => False
  end.

(** The accesses an activity still has to make. *)
Definition remaining (a : activity) : nat :=
  match act_stage a with
  | Idle => 4
  | Locked => 3
  | Found _ => 2
  | Mutated _ => 1
  | Finished _ => 0
  end.

Definition work (st : shared) : nat := sum_list (remaining <$> sh_acts st).

(** After some of [N] takes of distinct identifiers, done as indivisible
    steps: a take that is still to come finds its entry as it was, one
    that is done has got that entry and the entry is gone, and the rest of
    the table is as it was. *)
Definition takes_inv (tbl : gmap string Message) (ids : list string) (st : atomic) : Prop :=
  (∀ i id, ids !! i = Some id →
     (st.2 !! i = Some (takeIfPresent id, None) ∧ st.1 !! id = tbl !! id)
     ∨ (st.2 !! i = Some (takeIfPresent id, Some (tbl !! id)) ∧ st.1 !! id = None))
  ∧ (∀ k, k ∉ ids → st.1 !! k = tbl !! k)
  ∧ length st.2 = length ids.

(** ** A small installation, for running the program *)

Module Demo.

(** Phone numbers map to addresses at [sms.example.com] and back; an empty
    string maps to nothing, and the address [ignore@sms.example.com] is
    filtered by the configuration. *)
Definition phoneToAddress (p : string) : error + string :=
  if decide (p = "") then inl (ErrOther "empty phone number")
  else inr (p +:+ "@sms.example.com").

Definition addressToPhone (a : string) : error + string :=
  if decide (a = "") then inl (ErrOther "empty address")
  else if decide (a = "ignore@sms.example.com") then inl ErrIgnoreMessage
  else inr (String.substring 0 (String.length a - String.length "@sms.example.com") a).

(** The provider numbers its sends T1, T2, ...; it refuses an empty body. *)
Definition provider_send (sms : Sms) (n : nat) : (error + string) * nat :=
  if decide (sBody sms = "") then (inl (ErrOther "empty body"), n)
  else (inr ("T" +:+ pretty (S n)), S n).

#[export] Instance collab : Collaborators nat := {|
  Delivered := 0;
  PhoneToAddress := phoneToAddress;
  AddressToPhone := addressToPhone;
  send := provider_send
|}.

#[export] Instance handlers : Handlers (World nat) := spec_handlers.

Definition config : Config :=
  {| SmsProvider := ("twilio", None);
     HttpHost := "127.0.0.1"; HttpPort := 9677; CanHttpAuth := None;
     XmppHost := "127.0.0.1"; XmppPort := 5347;
     ComponentName := "sms.example.com"; SharedSecret := "secret" |}.

(** As [config], but no provider can be chosen. *)
Definition config_no_provider : Config :=
  {| SmsProvider := ("", Some (ErrOther "no provider configured"));
     HttpHost := "127.0.0.1"; HttpPort := 9677; CanHttpAuth := None;
     XmppHost := "127.0.0.1"; XmppPort := 5347;
     ComponentName := "sms.example.com"; SharedSecret := "secret" |}.

Definition world0 : World nat := mkWorld [] 0%nat [].

Definition alice_hello : Message :=
  {| mFrom := "alice@example.com"; mTo := "+15559998888@sms.example.com";
     mBody := "Hello"; ReceiptRequest := true; ReceiptAck := false |}.

Definition alice_empty : Message :=
  {| mFrom := "alice@example.com"; mTo := "+15559998888@sms.example.com";
     mBody := ""; ReceiptRequest := true; ReceiptAck := false |}.

(** An SMS with no sender number. *)
Definition sms_no_sender : Sms := {| sFrom := ""; sTo := "+15559998888"; sBody := "Hello" |}.


(** Two messages from the XMPP side: the first is sent as T1 and asks for a
    receipt, the second has an empty body, which the provider refuses. *)
Definition two_messages : list label :=
  [XmppSend 5%nat alice_hello; GwRecvXmpp 4%nat;
   XmppSend 5%nat alice_empty; GwRecvXmpp 4%nat].

Definition state_after (ls : list label) : Sys (World nat) :=
  match run ls (Main config world0) with
  | Some (Ok _ s) => s
  | Some (Panicked s) => s
  | None => boot config world0
  end.


(** The HTTP side reports T1 as delivered (status 0). *)
Definition status_delivered : list label := [HttpSend 6%nat (EvStatus "T1" 0)].

(** The Gateway ends on a message the provider refuses while another
    sender is blocked on the same channel. *)
Definition sender_waits : list label :=
  [XmppSend 5%nat alice_empty; XmppSend 5%nat alice_hello; GwRecvXmpp 4%nat].

(** A table with two receipts outstanding. *)
Definition two_receipts : gmap string Message :=
  {[ "T1" := receipt_for alice_hello; "T2" := receipt_for alice_empty ]}.

(** As [config], with credentials for the HTTP side. *)
Definition config_auth : Config :=
  {| SmsProvider := ("twilio", None);
     HttpHost := "127.0.0.1"; HttpPort := 9677;
     CanHttpAuth := Some ("gateway", "hunter2");
     XmppHost := "127.0.0.1"; XmppPort := 5347;
     ComponentName := "sms.example.com"; SharedSecret := "secret" |}.

(** Each task ends once and is started again by [Main]: the Gateway on the
    second of [two_messages], then the XMPP task, then the HTTP task. *)
Definition all_restarted : list label :=
  two_messages ++ [MainGateway; XmppDies 5%nat; MainXmpp; HttpDies 6%nat; MainHttp].

(** The two boundary tasks end and are started again. *)
Definition boundaries_restarted : list label :=
  [XmppDies 5%nat; MainXmpp; HttpDies 6%nat; MainHttp].

(** The HTTP side hands over a value that is neither message nor status. *)
Definition other_event : list label := [HttpSend 6%nat EvOther].

End Demo.

(** How many times a task has been started. *)
Definition starts (t : task) (tr : list action) : nat :=
  length (omap (λ a, match a with
                     | Start t' h => if decide (t' = t) then Some h else None
                     | _ => None
                     end) tr).

(** ** Readings of the specification the code is compared with *)

Section Statements.
Context {W : Type} `{handlers : Handlers W}.

(** The reading of the spec by which a restart of the Gateway leaves it an
    empty receipt table. *)
Definition restart_empties_table (cfg : Config) (w : W) : Prop :=
  ∀ s s', reachable cfg w (Ok tt s) →
          gatewayDead s ∈ closed s →
          step MainGateway s = Some (Ok tt s') →
          receiptFor (sc s') = ∅.

(** The reading by which a status outside the enumerated set ends the
    Gateway task alone: the program runs on, the health channel is closed
    and [Main] starts the task again. *)
Definition unknown_status_restarts_gateway (cfg : Config) (w : W) : Prop :=
  ∀ s h g id status errCh q,
    reachable cfg w (Ok tt s) →
    find_gateway h s = Some g →
    dequeue (g_rxSmsCh g) (smsQ s) = Some (rxSmsStatus id status errCh, q) →
    status ≠ smsDelivered →
    ∃ s1 s2, step (GwRecvSms h) s = Some (Ok tt s1)
             ∧ h ∈ closed s1
             ∧ step MainGateway s1 = Some (Ok tt s2).

(** The reading by which the program stops before any task has been
    started when no provider can be chosen. *)
Definition no_provider_aborts_before_tasks (cfg : Config) (w : W) : Prop :=
  ∀ prov e, SmsProvider cfg = (prov, Some e) →
    ∃ s, Main cfg w = Panicked s
         ∧ gateways s = [] ∧ xmpps s = [] ∧ https s = [].

(** An SMS event of the enumerated kinds: an inbound message, or a status
    update whose code is Delivered. *)
Definition enumerated (ev : rxSms) : Prop :=
  match ev with
  | rxSmsMessage _ _ => True
  | rxSmsStatus _ status _ => status = smsDelivered
  | rxSmsOther _ => False
  end.

(** The result of the translation the dispatch loop calls for [ev]. *)
Definition translation (ev : rxSms) (st : Store W) : option error * Store W :=
  match ev with
  | rxSmsMessage sms _ => sc_sms2xmpp sms st
  | rxSmsStatus id _ _ => sc_smsDelivered id st
  | rxSmsOther _ => (None, st)
  end.

End Statements.

(** ** What a run has shown so far *)

(** The channels that were closed, oldest first. *)
Definition closes (tr : list action) : list chan :=
  omap (λ a, match a with ChanClose c => Some c | _ => None end) tr.

(** The health channels of the incarnations of task [t] that were started,
    oldest first. *)
Definition started (t : task) (tr : list action) : list chan :=
  omap (λ a, match a with
             | Start t' h => if decide (t' = t) then Some h else None
             | _ => None
             end) tr.

(** The line [Main] logs when it finds task [t] dead (lines 64, 67, 70). *)
Definition restart_msg (t : task) : string :=
  match t with
  | Gateway => "Gateway died. Restarting"
  | Http => "HTTP died. Restarting"
  | Xmpp => "XMPP died. Restarting"
  end.

(** The case of the [select] of [Main] that restarts task [t]. *)
Definition select_case (t : task) : label :=
  match t with
  | Gateway => MainGateway
  | Http => MainHttp
  | Xmpp => MainXmpp
  end.

(** How often that line was logged for task [t]. *)
Definition restarts (t : task) (tr : list action) : nat :=
  length (omap (λ a, match a with
                     | LogPrintf fmt [] => if decide (fmt = restart_msg t) then Some tt else None
                     | _ => None
                     end) tr).

(** The durations of the calls of [time.Sleep], oldest first. *)
Definition sleeps (tr : list action) : list Z :=
  omap (λ a, match a with Sleep d => Some d | _ => None end) tr.

Section Observations.
Context {W : Type} `{handlers : Handlers W}.

(** The state of a program, running or ended by a panic. *)
Definition state_of (p : result W unit) : Sys W :=
  match p with
  | Ok _ s => s
  | Panicked s => s
  end.

(** The local variable of [Main] that holds the health channel of task [t]
    (lines 57-59, assigned again at lines 65, 68 and 72). *)
Definition watched (t : task) (s : Sys W) : chan :=
  match t with
  | Gateway => gatewayDead s
  | Http => httpDead s
  | Xmpp => xmppDead s
  end.

(** The health channels of the incarnations of task [t] that run. *)
Definition alive (t : task) (s : Sys W) : list chan :=
  match t with
  | Gateway => g_healthCh <$> gateways s
  | Http => h_healthCh <$> https s
  | Xmpp => x_healthCh <$> xmpps s
  end.

(** What a run of the supervisor keeps true: [Main] watches the incarnation
    started last of each task, every earlier one has closed its health
    channel, a channel is closed once and only as a health channel, and
    the restarts are logged and paced as lines 63-72 do it. *)
Record supervised (s : Sys W) : Prop := {
  sup_last : ∀ t, last (started t (trace s)) = Some (watched t s);
  sup_old : ∀ t c, c ∈ started t (trace s) → c ≠ watched t s → c ∈ closed s;
  sup_bound : ∀ t c, c ∈ started t (trace s) → (c < nextCh s)%nat;
  sup_started_nodup : ∀ t, NoDup (started t (trace s));
  sup_closes : ∀ c, c ∈ closes (trace s) ↔ c ∈ closed s;
  sup_closes_nodup : NoDup (closes (trace s));
  sup_closes_started : ∀ c, c ∈ closes (trace s) → ∃ t, c ∈ started t (trace s);
  sup_restarts : ∀ t, starts t (trace s) = S (restarts t (trace s));
  sup_sleeps : sleeps (trace s) = replicate (restarts Xmpp (trace s)) (1 * Second)
}.

End Observations.

(** * Properties *)

Lemma posted_app t1 t2 : posted (t1 ++ t2) = posted t1 ++ posted t2.
Proof. apply omap_app. Qed.

Lemma starts_app t tr1 tr2 : starts t (tr1 ++ tr2) = (starts t tr1 + starts t tr2)%nat.
Proof. unfold starts. by rewrite omap_app, length_app. Qed.

(** Tactics: run the monadic code of a transition, take an invariant apart,
    and close the fields of the invariant that a transition leaves alone. *)
Ltac exec_in H :=
  repeat (progress (
    cbv beta iota delta [Main_gatewayDead Main_httpDead Main_xmppDead main_select
      runGatewayProcess runHttpProcess runXmppProcess xmpp_run http_run
      gateway_turn gateway_exit closeChan perform emit
      makeChan modify get panic bind ret] in H;
    simpl in H)).

Ltac wf_split H :=
  destruct H as [Hcfg Hprov Hrs Hrx Htx Hnext Hclosed [Hgwb Hgw] [Hxmb Hxm] [Hhtb Hht]
                 (Hd1 & Hd2 & Hd3) HsmsQ Hnd Hpend HerrQ Hunp Hpnd Hpb].


Ltac wf_easy :=
  simpl; try done; try lia;
  try (split; [lia|done]);
  try match goal with
      | Hclosed : ∀ c, c ∈ closed _ → _ |- ∀ c, c ∈ closed _ → _ =>
          let c := fresh in let Hc := fresh in
          intros c Hc; specialize (Hclosed _ Hc); lia
      | HerrQ : ∀ c, is_Some (errQ _ !! c) → _ |- ∀ c, is_Some (errQ _ !! c) → _ =>
          let c := fresh in let Hc := fresh in
          intros c Hc; specialize (HerrQ _ Hc); lia
      | Hpend : Forall _ (pending ?s) |- Forall _ (pending _) =>
          change (Forall (λ ev, (ErrCh ev < S (nextCh s))%nat ∧ errQ s !! ErrCh ev = None)
                    (pending s));
          eapply Forall_impl; [exact Hpend|]; simpl; intros ? [? ?]; split; [lia|done]
      | Hpb : ∀ c, c ∈ posted (trace _) → _ |- ∀ c, c ∈ posted _ → _ =>
          let c := fresh in let Hc := fresh in
          intros c Hc; rewrite ?posted_app in Hc; simpl in Hc;
          rewrite ?app_nil_r in Hc; specialize (Hpb _ Hc); lia
      | |- NoDup (posted _) => rewrite ?posted_app; simpl; rewrite ?app_nil_r; done
      | Hunp : Forall _ (pending ?s) |- Forall (λ ev, ErrCh ev ∉ posted _) (pending _) =>
          change (pending _) with (pending s);
          rewrite ?posted_app; simpl; rewrite ?app_nil_r; done
      end.

Section Basics.
Context {W : Type} `{handlers : Handlers W}.

Lemma find_gateway_health h (s : Sys W) g :
  find_gateway h s = Some g → g_healthCh g = h ∧ g ∈ gateways s.
Proof.
  unfold find_gateway. intros Hf.
  destruct (list_find _ _) as [[i g']|] eqn:E; simplify_eq/=.
  apply list_find_Some in E as (Hl & Hh & _).
  split; [done|]. by eapply list_elem_of_lookup_2.
Qed.

Lemma find_gateway_gone h (l : list gatewayProc) (s : Sys W) :
  find_gateway h (set_gateways (filter (λ g', g_healthCh g' ≠ h) l) s) = None.
Proof.
  unfold find_gateway. simpl.
  destruct (list_find _ _) as [[i g']|] eqn:E; [|done].
  apply list_find_Some in E as (Hl & Hh & _).
  apply list_elem_of_lookup_2, list_elem_of_filter in Hl as [Hne _]. done.
Qed.

Lemma store_set_smsQ q (s : Sys W) : store (set_smsQ q s) = store s.
Proof. reflexivity. Qed.

Lemma store_set_xmppQ q (s : Sys W) : store (set_xmppQ q s) = store s.
Proof. reflexivity. Qed.

(** The program [Main] leaves behind, when a provider can be chosen. *)
Lemma Main_ok cfg (w : W) prov :
  SmsProvider cfg = (prov, None) →
  ∃ s, Main cfg w = Ok tt s
       ∧ receiptFor (sc s) = ∅ ∧ config (sc s) = cfg
       ∧ rxSmsCh (sc s) = 1%nat ∧ rxXmppCh (sc s) = 2%nat ∧ txXmppCh (sc s) = 3%nat
       ∧ gatewayDead s = 4%nat ∧ xmppDead s = 5%nat ∧ httpDead s = 6%nat
       ∧ nextCh s = 7%nat ∧ closed s = ∅
       ∧ trace s = [Start Gateway 4%nat; Start Xmpp 5%nat; Start Http 6%nat].
Proof.
  intros Hp. eexists. split.
  - unfold Main, Main_init, runHttpProcess, bind, get. simpl. rewrite Hp. simpl. reflexivity.
  - simpl. repeat split; reflexivity.
Qed.

Lemma Main_no_provider cfg (w : W) prov e :
  SmsProvider cfg = (prov, Some e) →
  ∃ s, Main cfg w = Panicked s.
Proof.
  intros Hp. eexists.
  unfold Main, Main_init, runHttpProcess, bind, get. simpl. rewrite Hp. simpl. reflexivity.
Qed.

Lemma reachable_Main_ok cfg (w : W) s :
  reachable cfg w (Ok tt s) → ∃ s0, Main cfg w = Ok tt s0.
Proof.
  intros Hr. remember (Ok tt s) as p eqn:Hp. revert s Hp.
  induction Hr as [|l s1 p Hr IH Hs]; intros s Hp; eauto.
Qed.

Lemma run_reachable cfg (w : W) ls p p' :
  reachable cfg w p → run ls p = Some p' → reachable cfg w p'.
Proof.
  revert p. induction ls as [|l ls IH]; intros p Hr Hrun; simpl in Hrun.
  - by simplify_eq.
  - destruct p as [[] s|s]; simpl in Hrun; [|done].
    destruct (step l s) as [p1|] eqn:Hs; simpl in Hrun; [|done].
    eapply IH; [|done]. by eapply reach_step.
Qed.

Lemma ErrCh_mkRxSms e c : ErrCh (mkRxSms e c) = c.
Proof. by destruct e. Qed.

Lemma gatewayRxSms_Ok ev (st : Store W) st' acts :
  gatewayRxSms ev st = (st', acts, Continue) →
  ∃ r, acts = [ChanSend (ErrCh ev) r].
Proof.
  unfold gatewayRxSms. destruct ev as [sms c|id status c|c]; simpl.
  - destruct (sc_sms2xmpp sms st). intros [= <- <-]. eauto.
  - destruct (decide (status = smsDelivered)); [|done].
    destruct (sc_smsDelivered id st). intros [= <- <-]. eauto.
  - done.
Qed.

Lemma wf_Main cfg (w : W) s : Main cfg w = Ok tt s → wf cfg s.
Proof.
  intros HM. destruct (SmsProvider cfg) as [prov [e|]] eqn:Hp.
  - destruct (Main_no_provider cfg w prov e Hp) as (s' & Hs'). congruence.
  - revert HM. unfold Main, Main_init, runHttpProcess, bind, get. simpl. rewrite Hp. simpl.
    intros [= <-]. constructor; simpl; try done; try lia.
    + by rewrite Hp.
    + split; [lia|]. rewrite decide_False by set_solver. done.
    + split; [lia|]. rewrite decide_False by set_solver. eauto.
    + split; [lia|]. rewrite decide_False by set_solver. eauto.
    + unfold pending. simpl. constructor.
    + intros c [x Hx]. by rewrite lookup_empty in Hx.
    + constructor.
    + intros c Hc. by apply elem_of_nil in Hc.
Qed.

Lemma find_xmpp_health h (s : Sys W) x :
  find_xmpp h s = Some x → x_healthCh x = h ∧ x ∈ xmpps s.
Proof.
  unfold find_xmpp. intros Hf.
  destruct (list_find _ _) as [[i x']|] eqn:E; simplify_eq/=.
  apply list_find_Some in E as (Hl & Hh & _).
  split; [done|]. by eapply list_elem_of_lookup_2.
Qed.

Lemma find_http_health h (s : Sys W) p :
  find_http h s = Some p → h_healthCh p = h ∧ p ∈ https s.
Proof.
  unfold find_http. intros Hf.
  destruct (list_find _ _) as [[i x']|] eqn:E; simplify_eq/=.
  apply list_find_Some in E as (Hl & Hh & _).
  split; [done|]. by eapply list_elem_of_lookup_2.
Qed.


Lemma wf_find_gateway cfg h (s : Sys W) g :
  wf cfg s → find_gateway h s = Some g →
  h = gatewayDead s ∧ (gatewayDead s ∉ closed s)
  ∧ g = ({| g_healthCh := gatewayDead s; g_rxSmsCh := 1%nat; g_rxXmppCh := 2%nat |})
  ∧ gateways s = [g].
Proof.
  intros Hwf Hf. apply find_gateway_health in Hf as [Hh Hin].
  destruct (wf_gateway _ _ Hwf) as [_ Hg].
  destruct (decide (gatewayDead s ∈ closed s)) as [Hc|Hc].
  - rewrite Hg in Hin. by apply elem_of_nil in Hin.
  - rewrite Hg in Hin. apply list_elem_of_singleton in Hin. subst g. simpl in *. by subst h.
Qed.

Lemma wf_find_xmpp cfg h (s : Sys W) x :
  wf cfg s → find_xmpp h s = Some x →
  h = xmppDead s ∧ (xmppDead s ∉ closed s) ∧ xmpps s = [x]
  ∧ x_healthCh x = h ∧ gatewayTx x = 3%nat ∧ gatewayRx x = 2%nat.
Proof.
  intros Hwf Hf. apply find_xmpp_health in Hf as [Hh Hin].
  destruct (wf_xmpp _ _ Hwf) as [_ Hg].
  destruct (decide (xmppDead s ∈ closed s)) as [Hc|Hc].
  - rewrite Hg in Hin. by apply elem_of_nil in Hin.
  - destruct Hg as (x' & Hx & Hh' & Ht & Hr). rewrite Hx in Hin.
    apply list_elem_of_singleton in Hin. subst x'. repeat split; try done. congruence.
Qed.

Lemma wf_find_http cfg h (s : Sys W) p :
  wf cfg s → find_http h s = Some p →
  h = httpDead s ∧ (httpDead s ∉ closed s) ∧ https s = [p]
  ∧ h_healthCh p = h ∧ h_rxSmsCh p = 1%nat.
Proof.
  intros Hwf Hf. apply find_http_health in Hf as [Hh Hin].
  destruct (wf_http _ _ Hwf) as [_ Hg].
  destruct (decide (httpDead s ∈ closed s)) as [Hc|Hc].
  - rewrite Hg in Hin. by apply elem_of_nil in Hin.
  - destruct Hg as (x' & Hx & Hh' & Hr). rewrite Hx in Hin.
    apply list_elem_of_singleton in Hin. subst x'. repeat split; try done. congruence.
Qed.

Lemma dequeue_Some {A} ch (q q' : gmap chan (list A)) v :
  dequeue ch q = Some (v, q') → ∃ rest, q !! ch = Some (v :: rest) ∧ q' = <[ch := rest]> q.
Proof.
  unfold dequeue. destruct (q !! ch) as [[|v' rest]|]; try done.
  intros [= -> <-]. eauto.
Qed.

Lemma step_wf cfg l (s s' : Sys W) :
  wf cfg s → step l s = Some (Ok tt s') → wf cfg s'.
Proof.
  intros Hwf Hs. destruct l; simpl in Hs.
  - (* GwRecvSms *)
    destruct (find_gateway h s) as [g|] eqn:Hg; simpl in Hs; [|done].
    destruct (wf_find_gateway _ _ _ _ Hwf Hg) as (-> & Hopen & -> & Hgs). simpl in Hs.
    destruct (dequeue 1%nat (smsQ s)) as [[ev q]|] eqn:Hq; simpl in Hs; [|done].
    apply dequeue_Some in Hq as (rest & Hq & ->).
    assert (Hpd : pending s = ev :: rest) by (unfold pending; by rewrite Hq).
    rewrite store_set_smsQ in Hs.
    destruct (gatewayRxSms ev (store s)) as [[st' acts] c] eqn:Hr.
    destruct c.
    2:{ exfalso. unfold gatewayRxSms in Hr. destruct ev; simpl in Hr;
        repeat case_match; simplify_eq. }
    2:{ exfalso. exec_in Hs. destruct (perform_all _ _); simplify_eq. }
    apply gatewayRxSms_Ok in Hr as [r ->].
    exec_in Hs. injection Hs as <-.
    wf_split Hwf. rewrite Hpd in Hnd, Hpend, Hunp. simpl in Hnd.
    apply NoDup_cons in Hnd as [Hnotin Hnd].
    apply Forall_cons in Hpend as [[Hevb _] Hrest].
    apply Forall_cons in Hunp as [Hevu Hunp].
    constructor; wf_easy.
    + intros c Hc. rewrite lookup_insert_ne by done. auto.
    + unfold pending. simpl. by rewrite lookup_insert_eq.
    + unfold pending. simpl. rewrite lookup_insert_eq. simpl.
      apply Forall_forall. intros ev0 Hin.
      rewrite Forall_forall in Hrest. destruct (Hrest _ Hin) as [Hb Hn].
      split; [done|]. unfold enqueue. rewrite lookup_insert_ne; [done|].
      intros Heq. apply Hnotin. rewrite Heq. by apply list_elem_of_fmap_2.
    + intros c [x Hx]. unfold enqueue in Hx.
      destruct (decide (c = ErrCh ev)) as [->|Hne]; [done|].
      rewrite lookup_insert_ne in Hx by done. eauto.
    + unfold pending. simpl. rewrite lookup_insert_eq. simpl.
      rewrite posted_app. simpl.
      apply Forall_forall. intros ev0 Hin [Hp|Hp%list_elem_of_singleton]%elem_of_app.
      * rewrite Forall_forall in Hunp. by apply (Hunp _ Hin).
      * apply Hnotin. rewrite <- Hp. by apply list_elem_of_fmap_2.
    + rewrite posted_app. simpl. apply NoDup_app. split; [done|].
      split; [|apply NoDup_singleton].
      intros c Hc ->%list_elem_of_singleton. done.
    + rewrite posted_app. simpl.
      intros c [Hc| ->%list_elem_of_singleton]%elem_of_app; [eauto|done].
  - (* GwRecvXmpp *)
    destruct (find_gateway h s) as [g|] eqn:Hg; simpl in Hs; [|done].
    destruct (wf_find_gateway _ _ _ _ Hwf Hg) as (-> & Hopen & -> & Hgs). simpl in Hs.
    destruct (dequeue 2%nat (xmppQ s)) as [[msg q]|] eqn:Hq; simpl in Hs; [|done].
    rewrite store_set_xmppQ in Hs. unfold gatewayRxXmpp in Hs.
    destruct (sc_xmpp2sms msg (store s)) as [[e|] st'].
    + exec_in Hs. injection Hs as <-.
      wf_split Hwf. constructor; wf_easy.
      * intros c [->%elem_of_singleton|Hc]%elem_of_union; [lia|auto].
      * split; [done|]. rewrite decide_True by set_solver.
        rewrite Hgs. by rewrite filter_cons_False by (simpl; tauto).
      * split; [done|].
        by rewrite (decide_ext _ (xmppDead s ∈ closed s)) by set_solver.
      * split; [done|].
        by rewrite (decide_ext _ (httpDead s ∈ closed s)) by set_solver.
    + exec_in Hs. injection Hs as <-.
      wf_split Hwf. constructor; wf_easy.
  - (* MainGateway *)
    exec_in Hs. destruct (decide (gatewayDead s ∈ closed s)) as [Hc|]; [|done].
    injection Hs as <-. wf_split Hwf. rewrite decide_True in Hgw by done.
    constructor; wf_easy.
    split; [lia|]. rewrite decide_False.
    + rewrite Hgw, Hrs, Hrx. done.
    + intros Hc'. specialize (Hclosed _ Hc'). lia.
  - (* MainHttp *)
    exec_in Hs. destruct (decide (httpDead s ∈ closed s)) as [Hc|]; [|done].
    wf_split Hwf. rewrite Hcfg in Hs.
    destruct (SmsProvider cfg) as [prov [e|]] eqn:Hp; [done|]. simpl in Hs.
    injection Hs as <-. rewrite decide_True in Hht by done.
    constructor; wf_easy.
    + by rewrite Hp.
    + split; [lia|]. rewrite decide_False.
      * rewrite Hht, Hrs. simpl. eauto.
      * intros Hc'. specialize (Hclosed _ Hc'). lia.
  - (* MainXmpp *)
    exec_in Hs. destruct (decide (xmppDead s ∈ closed s)) as [Hc|]; [|done].
    injection Hs as <-. wf_split Hwf. rewrite decide_True in Hxm by done.
    constructor; wf_easy.
    split; [lia|]. rewrite decide_False.
    + rewrite Hxm, Htx, Hrx. simpl. eauto.
    + intros Hc'. specialize (Hclosed _ Hc'). lia.
  - (* HttpSend *)
    destruct (find_http h s) as [p|] eqn:Hp; simpl in Hs; [|done].
    destruct (wf_find_http _ _ _ _ Hwf Hp) as (-> & Hopen & Hps & Hh & Hrx1).
    exec_in Hs. injection Hs as <-. rewrite Hrx1.
    wf_split Hwf. constructor; wf_easy.
    + intros c Hc. unfold enqueue. rewrite lookup_insert_ne by done. auto.
    + unfold pending, enqueue. simpl. rewrite lookup_insert_eq. simpl.
      rewrite fmap_app. simpl.
      apply NoDup_app. split; [done|]. split; [|apply NoDup_singleton].
      intros c Hc ->%list_elem_of_singleton. rewrite ErrCh_mkRxSms in Hc.
      apply list_elem_of_fmap in Hc as (ev & Heq & Hin).
      rewrite Forall_forall in Hpend. destruct (Hpend _ Hin). lia.
    + unfold pending, enqueue. simpl. rewrite lookup_insert_eq. simpl.
      apply Forall_app. split.
      * eapply Forall_impl; [exact Hpend|]. simpl. intros ev [? ?]. split; [lia|done].
      * apply Forall_singleton. rewrite ErrCh_mkRxSms. split; [lia|].
        match goal with |- ?x = None => destruct x eqn:He; [|done] end.
        assert (nextCh s < nextCh s)%nat by eauto. lia.
    + unfold pending, enqueue. simpl. rewrite lookup_insert_eq. simpl.
      apply Forall_app. split; [done|].
      apply Forall_singleton. rewrite ErrCh_mkRxSms.
      intros Hc. specialize (Hpb _ Hc). lia.
  - (* HttpRecvErr *)
    destruct (dequeue errCh (errQ s)) as [[v q]|] eqn:Hq; simpl in Hs; [|done].
    apply dequeue_Some in Hq as (rest & Hq & ->). injection Hs as <-.
    wf_split Hwf. constructor; wf_easy.
    + eapply Forall_impl; [exact Hpend|]. simpl. intros ev [? He]. split; [done|].
      rewrite lookup_insert_ne; [done|]. intros ->. congruence.
    + intros c [x Hx]. destruct (decide (c = errCh)) as [->|Hne].
      * apply HerrQ. eauto.
      * rewrite lookup_insert_ne in Hx by done. eauto.
  - (* XmppSend *)
    destruct (find_xmpp h s) as [x|] eqn:Hx; simpl in Hs; [|done].
    injection Hs as <-. wf_split Hwf. constructor; wf_easy.
  - (* HttpDies *)
    destruct (find_http h s) as [p|] eqn:Hp; simpl in Hs; [|done].
    destruct (wf_find_http _ _ _ _ Hwf Hp) as (-> & Hopen & Hps & Hh & Hrx1).
    exec_in Hs. injection Hs as <-.
    wf_split Hwf. constructor; wf_easy.
    + intros c [->%elem_of_singleton|Hc]%elem_of_union; [lia|auto].
    + split; [done|].
      by rewrite (decide_ext _ (gatewayDead s ∈ closed s)) by set_solver.
    + split; [done|].
      by rewrite (decide_ext _ (xmppDead s ∈ closed s)) by set_solver.
    + split; [done|]. rewrite decide_True by set_solver.
      rewrite Hps. by rewrite filter_cons_False by (simpl; tauto).
  - (* XmppDies *)
    destruct (find_xmpp h s) as [x|] eqn:Hx; simpl in Hs; [|done].
    destruct (wf_find_xmpp _ _ _ _ Hwf Hx) as (-> & Hopen & Hxs & Hh & Htx1 & Hrx1).
    exec_in Hs. injection Hs as <-.
    wf_split Hwf. constructor; wf_easy.
    + intros c [->%elem_of_singleton|Hc]%elem_of_union; [lia|auto].
    + split; [done|].
      by rewrite (decide_ext _ (gatewayDead s ∈ closed s)) by set_solver.
    + split; [done|]. rewrite decide_True by set_solver.
      rewrite Hxs. by rewrite filter_cons_False by (simpl; tauto).
    + split; [done|].
      by rewrite (decide_ext _ (httpDead s ∈ closed s)) by set_solver.
Qed.

Lemma reachable_wf cfg (w : W) s : reachable cfg w (Ok tt s) → wf cfg s.
Proof.
  intros Hr. remember (Ok tt s) as p eqn:Hp. revert s Hp.
  induction Hr as [|l s1 p Hr IH Hs]; intros s Hp.
  - by apply (wf_Main cfg w).
  - subst p. eapply step_wf; [|done]. by apply IH.
Qed.

End Basics.

Section Claims.
Context {W : Type} `{handlers : Handlers W}.

Lemma step_Main_inv l (s : Sys W) p :
  l = MainGateway ∨ l = MainHttp ∨ l = MainXmpp →
  step l s = Some p →
  match l with
  | MainGateway => gatewayDead s ∈ closed s ∧ p = Main_gatewayDead s
  | MainHttp => httpDead s ∈ closed s ∧ p = Main_httpDead s
  | MainXmpp => xmppDead s ∈ closed s ∧ p = Main_xmppDead s
  | _ => False
  end.
Proof.
  intros [->|[->| ->]]; simpl; unfold main_select; intros Hs;
    (destruct (decide _) as [Hc|Hc]; [|done]); by injection Hs as <-.
Qed.

Lemma Main_gatewayDead_spec (s : Sys W) :
  ∃ s', Main_gatewayDead s = Ok tt s'
    ∧ trace s' = trace s ++ [LogPrintf "Gateway died. Restarting" []; Start Gateway (nextCh s)]
    ∧ gatewayDead s' = nextCh s
    ∧ gateways s' = gateways s ++
        [{| g_healthCh := nextCh s; g_rxSmsCh := rxSmsCh (sc s); g_rxXmppCh := rxXmppCh (sc s) |}]
    ∧ nextCh s' = S (nextCh s)
    ∧ sc s' = sc s ∧ world s' = world s ∧ closed s' = closed s
    ∧ smsQ s' = smsQ s ∧ xmppQ s' = xmppQ s ∧ errQ s' = errQ s
    ∧ xmpps s' = xmpps s ∧ https s' = https s
    ∧ xmppDead s' = xmppDead s ∧ httpDead s' = httpDead s.
Proof.
  eexists. split; [reflexivity|]. simpl. rewrite <- app_assoc. repeat split.
Qed.

Lemma Main_xmppDead_spec (s : Sys W) :
  ∃ s', Main_xmppDead s = Ok tt s'
    ∧ trace s' = trace s ++ [LogPrintf "XMPP died. Restarting" []; Sleep (1 * Second);
                             Start Xmpp (nextCh s)]
    ∧ xmppDead s' = nextCh s
    ∧ xmpps s' = xmpps s ++
        [{| x_host := XmppHost (config (sc s)); x_port := XmppPort (config (sc s));
            x_name := ComponentName (config (sc s)); x_secret := SharedSecret (config (sc s));
            gatewayTx := txXmppCh (sc s); gatewayRx := rxXmppCh (sc s);
            x_healthCh := nextCh s |}]
    ∧ nextCh s' = S (nextCh s)
    ∧ sc s' = sc s ∧ world s' = world s ∧ closed s' = closed s
    ∧ smsQ s' = smsQ s ∧ xmppQ s' = xmppQ s ∧ errQ s' = errQ s
    ∧ gateways s' = gateways s ∧ https s' = https s
    ∧ gatewayDead s' = gatewayDead s ∧ httpDead s' = httpDead s.
Proof.
  eexists. split; [reflexivity|]. simpl. rewrite <- !app_assoc. repeat split.
Qed.

Lemma Main_httpDead_spec (s : Sys W) prov :
  SmsProvider (config (sc s)) = (prov, None) →
  ∃ s', Main_httpDead s = Ok tt s'
    ∧ trace s' = trace s ++ [LogPrintf "HTTP died. Restarting" []; Start Http (nextCh s)]
    ∧ httpDead s' = nextCh s
    ∧ https s' = https s ++
        [{| h_host := HttpHost (config (sc s)); h_port := HttpPort (config (sc s));
            h_provider := prov; h_rxSmsCh := rxSmsCh (sc s);
            h_auth := CanHttpAuth (config (sc s)); h_healthCh := nextCh s |}]
    ∧ nextCh s' = S (nextCh s)
    ∧ sc s' = sc s ∧ world s' = world s ∧ closed s' = closed s
    ∧ smsQ s' = smsQ s ∧ xmppQ s' = xmppQ s ∧ errQ s' = errQ s
    ∧ gateways s' = gateways s ∧ xmpps s' = xmpps s
    ∧ gatewayDead s' = gatewayDead s ∧ xmppDead s' = xmppDead s.
Proof.
  intros Hp. eexists. split.
  - unfold Main_httpDead, runHttpProcess, bind, get, emit, modify. simpl.
    rewrite Hp. reflexivity.
  - simpl. rewrite <- app_assoc. repeat split.
Qed.

(** C1, as the code has it.  When [Main] restarts the Gateway task, the
    delivery-receipt table is left exactly as it was: the new incarnation
    works on the same [Component], whose [receiptFor] map was made, empty,
    once by [Main] (line 51) before any task was started, and
    [runGatewayProcess] does not touch it. *)
Theorem gateway_restart_keeps_table cfg (w : W) s s' :
  reachable cfg w (Ok tt s) →
  step MainGateway s = Some (Ok tt s') →
  receiptFor (sc s') = receiptFor (sc s)
  ∧ store s' = store s
  ∧ find_gateway (gatewayDead s') s' =
      Some {| g_healthCh := gatewayDead s'; g_rxSmsCh := rxSmsCh (sc s'); g_rxXmppCh := rxXmppCh (sc s') |}
  ∧ ∃ s0, Main cfg w = Ok tt s0 ∧ receiptFor (sc s0) = ∅.
Proof.
  intros Hr Hs.
  pose proof (reachable_wf _ _ _ Hr) as Hwf.
  assert (Hwf' : wf cfg s') by (by eapply step_wf).
  apply step_Main_inv in Hs as [Hc Hs]; [|by left].
  destruct (Main_gatewayDead_spec s) as (s1 & Hs1 & Htr & Hgd & Hgs & Hn & Hsc & Hw & Hcl & _).
  rewrite Hs1 in Hs. injection Hs as ->.
  split; [by rewrite Hsc|]. split; [unfold store; by rewrite Hsc, Hw|]. split.
  - destruct (wf_gateway _ _ Hwf') as [Hb Hg].
    rewrite decide_False in Hg.
    + unfold find_gateway. rewrite Hg. simpl. rewrite decide_True by done. simpl.
      by rewrite (wf_rxSmsCh _ _ Hwf'), (wf_rxXmppCh _ _ Hwf').
    + rewrite Hgd, Hcl. intros Hc'. apply (wf_closed _ _ Hwf) in Hc'. lia.
  - destruct (reachable_Main_ok _ _ _ Hr) as [s0 Hs0]. exists s0. split; [done|].
    destruct (SmsProvider cfg) as [prov [e|]] eqn:Hp.
    + destruct (Main_no_provider cfg w prov e Hp) as [? ?]. congruence.
    + destruct (Main_ok cfg w prov Hp) as (s0' & Hs0' & Hrec & _). congruence.
Qed.

(** C2, as the code has it.  A status update whose code is not
    [smsDelivered] makes the Gateway goroutine call [log.Panicf].  The
    deferred close of the health channel runs, nothing is posted on the
    event's reply channel, and since the panic is not recovered the whole
    program ends: no transition is possible afterwards, in particular no
    restart of the Gateway by [Main]. *)
Theorem unknown_status_ends_program (s : Sys W) h g id status errCh q :
  find_gateway h s = Some g →
  dequeue (g_rxSmsCh g) (smsQ s) = Some (rxSmsStatus id status errCh, q) →
  status ≠ smsDelivered →
  ∃ s1, step (GwRecvSms h) s = Some (Panicked s1)
        ∧ trace s1 = trace s ++ [LogPrintf "unexpected SMS status: %d" [ArgInt status];
                                 Panicking "unexpected SMS status: %d" [ArgInt status];
                                 ChanClose h]
        ∧ posted (trace s1) = posted (trace s)
        ∧ errQ s1 = errQ s
        ∧ receiptFor (sc s1) = receiptFor (sc s)
        ∧ ∀ l, step_proc l (Panicked s1) = None.
Proof.
  intros Hg Hq Hne.
  apply find_gateway_health in Hg as Hh. destruct Hh as [Hh _].
  eexists. split.
  - simpl. rewrite Hg. simpl. rewrite Hq. simpl.
    unfold gatewayRxSms. rewrite decide_False by done. reflexivity.
  - simpl. rewrite Hh. rewrite <- !app_assoc. simpl.
    repeat split. rewrite !posted_app. simpl. by rewrite !app_nil_r.
Qed.

(** C5.  The two error paths of the dispatch loop differ.  When
    [sms2xmpp] fails for an inbound SMS message, the error is posted on
    that event's reply channel and the Gateway task stays as it is.  When
    [xmpp2sms] fails for an inbound XMPP message with an error other than
    [ErrIgnoreMessage], the error is logged, the loop returns and the health
    channel is closed: the task is gone. *)
Theorem gateway_error_policy (s : Sys W) h g :
  find_gateway h s = Some g →
  (∀ sms errCh q e st',
     dequeue (g_rxSmsCh g) (smsQ s) = Some (rxSmsMessage sms errCh, q) →
     sc_sms2xmpp sms (store s) = (Some e, st') →
     ∃ s', step (GwRecvSms h) s = Some (Ok tt s')
           ∧ trace s' = trace s ++ [ChanSend errCh (Some e)]
           ∧ errQ s' = enqueue errCh (Some e) (errQ s)
           ∧ gateways s' = gateways s ∧ closed s' = closed s)
  ∧ (∀ msg q e st',
     dequeue (g_rxXmppCh g) (xmppQ s) = Some (msg, q) →
     sc_xmpp2sms msg (store s) = (Some e, st') →
     e ≠ ErrIgnoreMessage →
     ∃ s', step (GwRecvXmpp h) s = Some (Ok tt s')
           ∧ trace s' = trace s ++ [LogPrintf "ERROR: converting XMPP to SMS: %s" [ArgErr e];
                                    ChanClose h]
           ∧ closed s' = {[h]} ∪ closed s
           ∧ find_gateway h s' = None).
Proof.
  intros Hg. apply find_gateway_health in Hg as Hh. destruct Hh as [Hh _].
  split.
  - intros sms errCh q e st' Hq Hr. eexists. split.
    + simpl. rewrite Hg. simpl. rewrite Hq. simpl.
      unfold gatewayRxSms. rewrite store_set_smsQ, Hr. reflexivity.
    + simpl. repeat split.
  - intros msg q e st' Hq Hr _. eexists. split.
    + simpl. rewrite Hg. simpl. rewrite Hq. simpl.
      unfold gatewayRxXmpp. rewrite store_set_xmppQ, Hr. reflexivity.
    + simpl. rewrite Hh, <- app_assoc. repeat split.
      apply find_gateway_gone.
Qed.

(** C8, as the code has it.  When [config.SmsProvider()] fails, [Main]
    panics inside [runHttpProcess], its third call: by then the Gateway and
    the XMPP task have been started, only the HTTP task has not.  The panic
    ends the program; nothing is retried. *)
Theorem no_provider_aborts_when_http_starts cfg (w : W) prov e :
  SmsProvider cfg = (prov, Some e) →
  ∃ s, Main cfg w = Panicked s
       ∧ trace s = [Start Gateway 4%nat; Start Xmpp 5%nat;
                    Panicking "Couldn't choose an SMS provider: %s" [ArgErr e]]
       ∧ gateways s = [{| g_healthCh := 4%nat; g_rxSmsCh := 1%nat; g_rxXmppCh := 2%nat |}]
       ∧ (∃ x, xmpps s = [x] ∧ x_healthCh x = 5%nat)
       ∧ https s = []
       ∧ ∀ l, step_proc l (Panicked s) = None.
Proof.
  intros Hp. eexists. split.
  - unfold Main, Main_init, runHttpProcess, bind, get. simpl. rewrite Hp. reflexivity.
  - simpl. repeat split. eauto.
Qed.

Lemma find_gateway_single (s : Sys W) g :
  gateways s = [g] → find_gateway (g_healthCh g) s = Some g.
Proof. intros Hg. unfold find_gateway. rewrite Hg. simpl. by rewrite decide_True. Qed.



Lemma wf_running_gateway cfg (s : Sys W) :
  wf cfg s → gatewayDead s ∉ closed s →
  find_gateway (gatewayDead s) s
  = Some {| g_healthCh := gatewayDead s; g_rxSmsCh := 1%nat; g_rxXmppCh := 2%nat |}.
Proof.
  intros Hwf Ho. destruct (wf_gateway _ _ Hwf) as [_ Hg].
  rewrite decide_False in Hg by done.
  by apply (find_gateway_single s {| g_healthCh := gatewayDead s |}).
Qed.







Lemma gatewayRxSms_enumerated ev (st : Store W) :
  enumerated ev →
  gatewayRxSms ev st
  = ((translation ev st).2, [ChanSend (ErrCh ev) (translation ev st).1], Continue).
Proof.
  destruct ev as [sms c|id status c|c]; simpl; [| |done].
  - intros _. by destruct (sc_sms2xmpp sms st).
  - intros ->. rewrite decide_True by done. by destruct (sc_smsDelivered id st).
Qed.

Lemma wf_pending_blocked cfg (s : Sys W) ev :
  wf cfg s → ev ∈ pending s →
  (ErrCh ev ∉ posted (trace s)) ∧ errQ s !! ErrCh ev = None
  ∧ step (HttpRecvErr (ErrCh ev)) s = None.
Proof.
  intros Hwf Hin.
  pose proof (wf_pending _ _ Hwf) as Hp. pose proof (wf_unposted _ _ Hwf) as Hu.
  rewrite Forall_forall in Hp, Hu. destruct (Hp _ Hin) as [_ Hnone].
  split; [by apply Hu|]. split; [done|].
  simpl. unfold dequeue. by rewrite Hnone.
Qed.

(** C7.  For an SMS event of the enumerated kinds at the head of the
    rxSms channel of a running Gateway: nothing has been posted on its
    reply channel so far and the HTTP handler waiting on it is blocked (as
    is every handler whose event is still queued); the Gateway's step posts
    exactly one outcome, the result of the translation, on that channel, no
    reply channel is ever posted on twice, the Gateway keeps running, and
    only now can the handler proceed. *)
Theorem one_outcome_per_sms_event cfg (w : W) s h g ev q :
  reachable cfg w (Ok tt s) →
  find_gateway h s = Some g →
  dequeue (g_rxSmsCh g) (smsQ s) = Some (ev, q) →
  enumerated ev →
  (ErrCh ev ∉ posted (trace s))
  ∧ (∀ ev', ev' ∈ pending s → step (HttpRecvErr (ErrCh ev')) s = None)
  ∧ step (HttpRecvErr (ErrCh ev)) s = None
  ∧ ∃ s', step (GwRecvSms h) s = Some (Ok tt s')
          ∧ trace s' = trace s ++ [ChanSend (ErrCh ev) (translation ev (store s)).1]
          ∧ posted (trace s') = posted (trace s) ++ [ErrCh ev]
          ∧ NoDup (posted (trace s'))
          ∧ errQ s' !! ErrCh ev = Some [(translation ev (store s)).1]
          ∧ is_Some (find_gateway h s')
          ∧ ∃ s'', step (HttpRecvErr (ErrCh ev)) s' = Some (Ok tt s'').
Proof.
  intros Hr Hg Hq Hen. pose proof (reachable_wf _ _ _ Hr) as Hwf.
  destruct (wf_find_gateway _ _ _ _ Hwf Hg) as (-> & Hopen & -> & Hgs). simpl in Hq.
  apply dequeue_Some in Hq as Hq'. destruct Hq' as (rest & Hq' & ->).
  assert (Hin : ev ∈ pending s).
  { unfold pending. rewrite Hq'. simpl. by left. }
  destruct (wf_pending_blocked _ _ _ Hwf Hin) as (Hunp & Hnone & Hblocked).
  split; [done|].
  split; [intros ev' Hin'; by apply (wf_pending_blocked _ _ _ Hwf Hin')|].
  split; [done|].
  assert (Hstep : step (GwRecvSms (gatewayDead s)) s
          = Some (Ok tt (set_trace (trace s ++ [ChanSend (ErrCh ev) (translation ev (store s)).1])
                   (set_errQ (enqueue (ErrCh ev) (translation ev (store s)).1 (errQ s))
                      (put_store (translation ev (store s)).2
                         (set_smsQ (<[1%nat := rest]> (smsQ s)) s)))))).
  { unfold step. rewrite Hg. simpl. rewrite Hq. simpl.
    rewrite store_set_smsQ, (gatewayRxSms_enumerated _ _ Hen). reflexivity. }
  eexists. split; [exact Hstep|].
  assert (Hwf' := step_wf _ _ _ _ Hwf Hstep).
  simpl. split; [done|]. split; [by rewrite posted_app|].
  split; [exact (wf_posted_nodup _ _ Hwf')|].
  split; [unfold enqueue; by rewrite lookup_insert_eq, Hnone|].
  split; [unfold find_gateway; simpl; rewrite Hgs; simpl;
          rewrite decide_True by done; simpl; eauto|].
  eexists. unfold dequeue, enqueue. simpl. rewrite lookup_insert_eq, Hnone. simpl. reflexivity.
Qed.

(** C10.  The three channels of the component are those [Main] made at
    start, they are distinct, and every task incarnation holds exactly
    them.  A restart of the Gateway leaves the queues of blocked senders
    untouched, and the new incarnation receives from the same channels: a
    sender that was blocked on rxSmsCh or rxXmppCh when the old incarnation
    died is the next one the new incarnation serves. *)
Theorem channels_made_once (cfg : Config) (w : W) s :
  reachable cfg w (Ok tt s) →
  (∃ s0, Main cfg w = Ok tt s0
         ∧ rxSmsCh (sc s) = rxSmsCh (sc s0)
         ∧ rxXmppCh (sc s) = rxXmppCh (sc s0)
         ∧ txXmppCh (sc s) = txXmppCh (sc s0))
  ∧ NoDup [rxSmsCh (sc s); rxXmppCh (sc s); txXmppCh (sc s)]
  ∧ Forall (λ g, g_rxSmsCh g = rxSmsCh (sc s) ∧ g_rxXmppCh g = rxXmppCh (sc s)) (gateways s)
  ∧ Forall (λ x, gatewayTx x = txXmppCh (sc s) ∧ gatewayRx x = rxXmppCh (sc s)) (xmpps s)
  ∧ Forall (λ p, h_rxSmsCh p = rxSmsCh (sc s)) (https s)
  ∧ (∀ s', step MainGateway s = Some (Ok tt s') →
       smsQ s' = smsQ s ∧ xmppQ s' = xmppQ s
       ∧ ∃ g', find_gateway (gatewayDead s') s' = Some g'
           ∧ g_rxSmsCh g' = rxSmsCh (sc s) ∧ g_rxXmppCh g' = rxXmppCh (sc s)
           ∧ (∀ ev rest, smsQ s !! rxSmsCh (sc s) = Some (ev :: rest) →
                dequeue (g_rxSmsCh g') (smsQ s') = Some (ev, <[rxSmsCh (sc s) := rest]> (smsQ s))
                ∧ is_Some (step (GwRecvSms (gatewayDead s')) s'))
           ∧ (∀ m rest, xmppQ s !! rxXmppCh (sc s) = Some (m :: rest) →
                dequeue (g_rxXmppCh g') (xmppQ s') = Some (m, <[rxXmppCh (sc s) := rest]> (xmppQ s))
                ∧ is_Some (step (GwRecvXmpp (gatewayDead s')) s'))).
Proof.
  intros Hr. pose proof (reachable_wf _ _ _ Hr) as Hwf.
  pose proof (wf_rxSmsCh _ _ Hwf) as Hrs. pose proof (wf_rxXmppCh _ _ Hwf) as Hrx.
  pose proof (wf_txXmppCh _ _ Hwf) as Htx.
  split.
  { destruct (reachable_Main_ok _ _ _ Hr) as [s0 Hs0]. exists s0. split; [done|].
    pose proof (wf_Main _ _ _ Hs0) as Hwf0.
    rewrite Hrs, Hrx, Htx.
    by rewrite (wf_rxSmsCh _ _ Hwf0), (wf_rxXmppCh _ _ Hwf0), (wf_txXmppCh _ _ Hwf0). }
  split.
  { rewrite Hrs, Hrx, Htx. repeat constructor; set_solver. }
  split.
  { destruct (wf_gateway _ _ Hwf) as [_ Hg]. rewrite Hrs, Hrx.
    destruct (decide _); rewrite Hg; repeat constructor. }
  split.
  { destruct (wf_xmpp _ _ Hwf) as [_ Hg]. rewrite Htx, Hrx.
    destruct (decide _); [rewrite Hg; constructor|].
    destruct Hg as (x & -> & _ & ? & ?). by repeat constructor. }
  split.
  { destruct (wf_http _ _ Hwf) as [_ Hg]. rewrite Hrs.
    destruct (decide _); [rewrite Hg; constructor|].
    destruct Hg as (x & -> & _ & ?). by repeat constructor. }
  intros s' Hs.
  assert (Hwf' : wf cfg s') by (by eapply step_wf).
  apply step_Main_inv in Hs as [Hc Hs]; [|by left].
  destruct (Main_gatewayDead_spec s)
    as (s1 & Hs1 & Htr & Hgd & Hgs & Hn & Hsc & Hw & Hcl & HsQ & HxQ & _).
  rewrite Hs1 in Hs. injection Hs as <-.
  split; [done|]. split; [done|].
  assert (Ho : gatewayDead s' ∉ closed s').
  { rewrite Hgd, Hcl. intros Hc'. apply (wf_closed _ _ Hwf) in Hc'. lia. }
  pose proof (wf_running_gateway _ _ Hwf' Ho) as Hfind.
  eexists. split; [exact Hfind|]. simpl. rewrite Hrs, Hrx.
  split; [done|]. split; [done|]. split.
  - intros ev rest Hq.
    assert (Hd : dequeue 1%nat (smsQ s') = Some (ev, <[1%nat := rest]> (smsQ s))).
    { unfold dequeue. by rewrite HsQ, Hq. }
    split; [done|]. unfold step. rewrite Hfind. simpl. rewrite Hd. simpl. eauto.
  - intros m rest Hq.
    assert (Hd : dequeue 2%nat (xmppQ s') = Some (m, <[2%nat := rest]> (xmppQ s))).
    { unfold dequeue. by rewrite HxQ, Hq. }
    split; [done|]. unfold step. rewrite Hfind. simpl. rewrite Hd. simpl. eauto.
Qed.


Lemma run_cons l ls (p : result W unit) : run (l :: ls) p = step_proc l p ≫= run ls.
Proof. reflexivity. Qed.

Lemma gateway_serves_head cfg (s : Sys W) ev tl :
  wf cfg s → gatewayDead s ∉ closed s → pending s = ev :: tl → enumerated ev →
  step (GwRecvSms (gatewayDead s)) s
  = Some (Ok tt (set_trace (trace s ++ [ChanSend (ErrCh ev) (translation ev (store s)).1])
                   (set_errQ (enqueue (ErrCh ev) (translation ev (store s)).1 (errQ s))
                      (put_store (translation ev (store s)).2
                         (set_smsQ (<[1%nat := tl]> (smsQ s)) s))))).
Proof.
  intros Hwf Ho Hp Hen.
  assert (Hq : smsQ s !! (1%nat : chan) = Some (ev :: tl)).
  { unfold pending in Hp. destruct (smsQ s !! (1%nat : chan)); simpl in Hp; by subst. }
  unfold step. rewrite (wf_running_gateway _ _ Hwf Ho). simpl.
  unfold dequeue. rewrite Hq. simpl.
  rewrite store_set_smsQ, (gatewayRxSms_enumerated _ _ Hen). reflexivity.
Qed.

End Claims.

Section ReceiptTable.
Context {P : Type} `{collab : Collaborators P}.
#[local] Existing Instance spec_handlers.










End ReceiptTable.

Lemma excl_start tbl ops : excl (start tbl ops).
Proof.
  split; simpl.
  - intros i a Ha. apply list_lookup_fmap_Some in Ha as (o & -> & _). simpl. split; done.
  - intros i a r Ha. apply list_lookup_fmap_Some in Ha as (o & -> & _). done.
  - done.
Qed.

Lemma excl_set i st a tbl mu stg :
  excl st → sh_acts st !! i = Some a →
  (critical stg ↔ mu = Some i) →
  (∀ k, k ≠ i → mu = Some k ↔ sh_mutex st = Some k) →
  (∀ r, stg = Found r → ∃ id, act_op a = takeIfPresent id ∧ r = tbl !! id) →
  (tbl = sh_table st ∨ sh_mutex st = Some i) →
  excl (mkShared tbl mu (<[i := mkActivity (act_op a) stg]> (sh_acts st))).
Proof.
  intros [Hh Hf Hrg] Ha Hi Hk Hfi Htbl.
  assert (Hlen : (i < length (sh_acts st))%nat) by (by eapply lookup_lt_Some).
  split; simpl.
  - intros k b Hb. destruct (decide (k = i)) as [->|Hne].
    + rewrite list_lookup_insert_eq in Hb by done. by injection Hb as <-.
    + rewrite list_lookup_insert_ne in Hb by done. rewrite (Hh k b Hb). by rewrite Hk.
  - intros k b r Hb Hst. destruct (decide (k = i)) as [->|Hne].
    + rewrite list_lookup_insert_eq in Hb by done. injection Hb as <-. simpl in *. eauto.
    + rewrite list_lookup_insert_ne in Hb by done.
      destruct (Hf k b r Hb Hst) as (id & Hop & Hr). exists id. split; [done|].
      destruct Htbl as [->|Hm]; [done|].
      assert (sh_mutex st = Some k) by (apply (Hh k b Hb); by rewrite Hst). congruence.
  - intros j Hj. destruct (decide (j = i)) as [->|Hne].
    + rewrite list_lookup_insert_eq by done. eauto.
    + rewrite list_lookup_insert_ne by done. apply Hrg. by apply Hk.
Qed.

Lemma abstract_same i st a tbl mu stg :
  sh_acts st !! i = Some a → tbl = sh_table st → outcome stg = outcome (act_stage a) →
  abstract (mkShared tbl mu (<[i := mkActivity (act_op a) stg]> (sh_acts st))) = abstract st.
Proof.
  intros Ha -> Ho. unfold abstract. simpl. f_equal.
  rewrite list_fmap_insert. simpl. apply list_insert_id.
  by rewrite list_lookup_fmap, Ha, Ho.
Qed.

Lemma abstract_done i st a mu r :
  sh_acts st !! i = Some a → outcome (act_stage a) = None →
  (apply_op (act_op a) (sh_table st)).1 = r →
  atomic_step i (abstract st)
  = Some (abstract (mkShared (apply_op (act_op a) (sh_table st)).2 mu
                      (<[i := mkActivity (act_op a) (Mutated r)]> (sh_acts st)))).
Proof.
  intros Ha Ho Hr. unfold atomic_step, abstract. simpl.
  rewrite list_lookup_fmap, Ha. simpl. rewrite Ho.
  destruct (apply_op (act_op a) (sh_table st)) as [r' tbl'] eqn:Hap. simpl in *. subst r'.
  by rewrite list_fmap_insert.
Qed.

Lemma act_step_refines i st st' :
  excl st → act_step i st = Some st' →
  excl st' ∧ (abstract st' = abstract st ∨ atomic_step i (abstract st) = Some (abstract st')).
Proof.
  intros Hex Hs. unfold act_step in Hs.
  destruct (sh_acts st !! i) as [a|] eqn:Ha; simpl in Hs; [|done].
  pose proof (excl_holder _ Hex i a Ha) as Hhold.
  destruct a as [o stg]. simpl in *.
  destruct stg as [| |r|r|r]; simpl in *.
  - (* Lock *)
    destruct (sh_mutex st) as [j|] eqn:Hm; [destruct o; done|].
    assert (Hs' : st' = mkShared (sh_table st) (Some i)
                    (<[i := mkActivity (act_op (mkActivity o Idle)) Locked]> (sh_acts st)))
      by (destruct o; by injection Hs as <-).
    subst st'. split.
    + apply excl_set; try done; [|by left].
      intros k Hne. rewrite Hm. split; [intros [= ?]; done|done].
    + left. by apply abstract_same.
  - assert (Hm : sh_mutex st = Some i) by (by apply Hhold).
    destruct o as [id m|id]; injection Hs as <-.
    + (* put: the map is written *)
      split.
      * apply (excl_set i st (mkActivity (put id m) Locked)); try done. by right.
      * right. by apply (abstract_done i st (mkActivity (put id m) Locked)).
    + (* takeIfPresent: the map is read *)
      split.
      * apply (excl_set i st (mkActivity (takeIfPresent id) Locked)); try done;
          [|by left].
        intros r [= <-]. eauto.
      * left. by apply (abstract_same i st (mkActivity (takeIfPresent id) Locked)).
  - assert (Hm : sh_mutex st = Some i) by (by apply Hhold).
    destruct o as [id m|id]; [done|]. injection Hs as <-.
    (* takeIfPresent: the entry is deleted *)
    destruct (excl_found _ Hex i _ r Ha eq_refl) as (id' & [= <-] & Hr).
    assert (Htbl : match r with Some _ => delete id (sh_table st) | None => sh_table st end
                   = delete id (sh_table st)).
    { destruct r; [done|]. by rewrite delete_id. }
    rewrite Htbl. split.
    + apply (excl_set i st (mkActivity (takeIfPresent id) (Found r))); try done. by right.
    + right. by apply (abstract_done i st (mkActivity (takeIfPresent id) (Found r))).
  - (* Unlock *)
    assert (Hm : sh_mutex st = Some i) by (by apply Hhold).
    assert (Hs' : st' = mkShared (sh_table st) None
                    (<[i := mkActivity (act_op (mkActivity o (Mutated r))) (Finished r)]>
                       (sh_acts st)))
      by (destruct o; by injection Hs as <-).
    subst st'. split.
    + apply excl_set; try done; [|by left].
      intros k Hne. rewrite Hm. split; [done|intros [= ?]; done].
    + left. by apply abstract_same.
  - destruct o; done.
Qed.

Lemma act_run_refines sch st st' :
  excl st → act_run sch st = Some st' →
  excl st' ∧ ∃ asch, atomic_run asch (abstract st) = Some (abstract st').
Proof.
  revert st. induction sch as [|i sch IH]; intros st Hex Hrun; simpl in Hrun.
  - injection Hrun as <-. split; [done|]. by exists [].
  - destruct (act_step i st) as [st1|] eqn:Hs; simpl in Hrun; [|done].
    destruct (act_step_refines _ _ _ Hex Hs) as [Hex1 Habs].
    destruct (IH _ Hex1 Hrun) as [Hex' [asch Hasch]]. split; [done|].
    destruct Habs as [Heq|Hstep].
    + exists asch. by rewrite <- Heq.
    + exists (i :: asch). simpl. by rewrite Hstep.
Qed.

(** *** N takes of N distinct identifiers that are in the table *)

Lemma takes_inv_start tbl ids :
  takes_inv tbl ids (abstract (start tbl (takeIfPresent <$> ids))).
Proof.
  split; [|split]; simpl.
  - intros i id Hi. left. split; [|done].
    rewrite !list_lookup_fmap, Hi. done.
  - done.
  - by rewrite !length_fmap.
Qed.

Lemma takes_inv_step tbl ids i st st' :
  NoDup ids → takes_inv tbl ids st → atomic_step i st = Some st' → takes_inv tbl ids st'.
Proof.
  intros Hnd (Hacts & Hrest & Hlen) Hs. unfold atomic_step in Hs.
  destruct (st.2 !! i) as [[o [r|]]|] eqn:Hi; try done.
  assert (Hlt : (i < length ids)%nat) by (rewrite <- Hlen; by eapply lookup_lt_Some).
  destruct (lookup_lt_is_Some_2 ids i Hlt) as [id Hid].
  destruct (Hacts i id Hid) as [[Hl Ht]|[Hl _]]; [|congruence].
  rewrite Hi in Hl. injection Hl as ->. simpl in Hs. injection Hs as <-.
  split; [|split]; simpl.
  - intros j id' Hj. destruct (decide (j = i)) as [->|Hne].
    + assert (id' = id) as -> by congruence. right.
      rewrite list_lookup_insert_eq by (by eapply lookup_lt_Some).
      rewrite lookup_delete_eq, Ht. done.
    + assert (Hid' : id' ≠ id).
      { intros ->. apply Hne. by eapply NoDup_lookup. }
      rewrite list_lookup_insert_ne by done. rewrite lookup_delete_ne by done.
      by apply Hacts.
  - intros k Hk. rewrite lookup_delete_ne; [by apply Hrest|].
    intros <-. apply Hk. by eapply list_elem_of_lookup_2.
  - by rewrite length_insert.
Qed.

Lemma takes_inv_run tbl ids sch st st' :
  NoDup ids → takes_inv tbl ids st → atomic_run sch st = Some st' → takes_inv tbl ids st'.
Proof.
  intros Hnd. revert st. induction sch as [|i sch IH]; intros st Hinv Hrun; simpl in Hrun.
  - by injection Hrun as <-.
  - destruct (atomic_step i st) as [st1|] eqn:Hs; simpl in Hrun; [|done].
    eapply IH; [|done]. by eapply takes_inv_step.
Qed.

(** *** No activity is stuck, and every operation comes to its end *)

Lemma sum_list_insert (l : list nat) i x y :
  l !! i = Some x → (sum_list (<[i := y]> l) + x = sum_list l + y)%nat.
Proof.
  revert i. induction l as [|z l IH]; intros [|i] Hi; simpl in *; try done.
  - injection Hi as ->. lia.
  - specialize (IH i Hi). lia.
Qed.

Lemma work_step i st st' : act_step i st = Some st' → (work st' < work st)%nat.
Proof.
  unfold act_step, work. intros Hs.
  destruct (sh_acts st !! i) as [[o stg]|] eqn:Ha; simpl in Hs; [|done].
  assert (Hrem : (remaining <$> sh_acts st) !! i = Some (remaining (mkActivity o stg)))
    by (by rewrite list_lookup_fmap, Ha).
  destruct stg as [| |r|r|r], o as [id m|id]; simpl in Hs;
    try done; try (destruct (sh_mutex st); [done|]);
    injection Hs as <-; simpl; rewrite list_fmap_insert;
    match goal with
    | |- context [<[i := ?y]> _] => pose proof (sum_list_insert _ i _ y Hrem) as Hsum
    end; unfold remaining in *; simpl in *; lia.
Qed.

Lemma sum_list_0 (l : list nat) : sum_list l = 0%nat → Forall (λ x, x = 0%nat) l.
Proof.
  induction l as [|x l IH]; simpl; intros Hs; constructor; [lia|apply IH; lia].
Qed.

Lemma work_0_finished st :
  work st = 0%nat → Forall (λ a, finished (act_stage a)) (sh_acts st).
Proof.
  unfold work. intros Hw%sum_list_0. apply Forall_fmap in Hw.
  eapply Forall_impl; [exact Hw|]. intros [o [| |r|r|r]]; unfold remaining; simpl; done.
Qed.

Lemma excl_progress st :
  excl st → work st ≠ 0%nat → ∃ i st', act_step i st = Some st'.
Proof.
  intros [Hh Hf Hrg] Hw. destruct (sh_mutex st) as [j|] eqn:Hm.
  - (* the holder of the mutex can go on *)
    destruct (Hrg j eq_refl) as [[o stg] Ha]. exists j.
    pose proof (proj2 (Hh j _ Ha) eq_refl) as Hc. simpl in Hc.
    unfold act_step. rewrite Ha. simpl.
    destruct stg as [| |r|r|r]; try done.
    + destruct o; eauto.
    + destruct (Hf j _ r Ha eq_refl) as (id & Hop & _). simpl in Hop. subst o. eauto.
    + destruct o; eauto.
  - (* the mutex is free: an activity that has not finished can take it *)
    assert (∃ i a, sh_acts st !! i = Some a ∧ ¬ finished (act_stage a)) as (i & a & Ha & Hnf).
    { destruct (decide (Forall (λ a, remaining a = 0%nat) (sh_acts st))) as [Hall|Hex].
      - exfalso. apply Hw. unfold work. clear -Hall.
        induction Hall as [|a l Ha _ IH]; [done|].
        by destruct a as [o [| |r|r|r]].
      - apply not_Forall_Exists in Hex; [|apply _].
        apply Exists_exists in Hex as (a & Hin & Hrem).
        apply list_elem_of_lookup in Hin as [i Hi]. exists i, a. split; [done|].
        intros Hfin. apply Hrem. by destruct a as [o [| |r|r|r]]. }
    exists i. unfold act_step. rewrite Ha. simpl.
    assert (Hnc : ¬ critical (act_stage a)).
    { intros Hc. apply (Hh i a Ha) in Hc. congruence. }
    destruct a as [o [| |r|r|r]]; simpl in *; try done.
    rewrite Hm. destruct o; eauto.
Qed.

Lemma excl_completes n st :
  excl st → (work st ≤ n)%nat →
  ∃ sch st', act_run sch st = Some st'
             ∧ Forall (λ a, finished (act_stage a)) (sh_acts st').
Proof.
  revert st. induction n as [|n IH]; intros st Hex Hw.
  - exists [], st. split; [done|]. apply work_0_finished. lia.
  - destruct (decide (work st = 0%nat)) as [H0|Hne].
    + exists [], st. split; [done|]. by apply work_0_finished.
    + destruct (excl_progress st Hex Hne) as (i & st1 & Hs).
      pose proof (work_step _ _ _ Hs) as Hlt.
      destruct (act_step_refines _ _ _ Hex Hs) as [Hex1 _].
      destruct (IH st1 Hex1 ltac:(lia)) as (sch & st' & Hrun & Hfin).
      exists (i :: sch), st'. split; [|done]. simpl. by rewrite Hs.
Qed.

Section Delivered.
Context {P : Type} `{collab : Collaborators P}.
#[local] Existing Instance spec_handlers.

Lemma omap_lookup_delete (tbl : gmap string Message) id (ids : list string) :
  id ∉ ids → omap (λ k, delete id tbl !! k) ids = omap (λ k, tbl !! k) ids.
Proof.
  intros Hn. apply list_omap_ext, Forall2_same_length_lookup_2; [done|].
  intros i k k' Hk Hk'. assert (k' = k) as -> by congruence.
  apply lookup_delete_ne. intros ->. apply Hn. by eapply list_elem_of_lookup_2.
Qed.

Lemma delivered_events_served cfg (w0 : World P) ids :
  ∀ chs s rest,
  reachable cfg w0 (Ok tt s) →
  gatewayDead s ∉ closed s →
  length chs = length ids →
  NoDup ids →
  pending s = zip_with (λ id c, rxSmsStatus id Delivered c) ids chs ++ rest →
  ∃ s', run (replicate (length ids) (GwRecvSms (gatewayDead s))) (Ok tt s) = Some (Ok tt s')
        ∧ pending s' = rest
        ∧ (∀ id, id ∈ ids → receiptFor (sc s') !! id = None)
        ∧ (∀ k, k ∉ ids → receiptFor (sc s') !! k = receiptFor (sc s) !! k)
        ∧ outbound (world s')
          = outbound (world s) ++ omap (λ id, receiptFor (sc s) !! id) ids
        ∧ trace s' = trace s ++ ((λ c, ChanSend c None) <$> chs)
        ∧ gatewayDead s' = gatewayDead s ∧ closed s' = closed s.
Proof.
  induction ids as [|id ids IH]; intros chs s rest Hr Ho Hlen Hnd Hp.
  - destruct chs; [|done]. exists s. simpl in *. rewrite !app_nil_r.
    repeat split; try done. intros id Hin. by apply elem_of_nil in Hin.
  - destruct chs as [|c chs]; [done|]. simpl in Hlen, Hp.
    apply NoDup_cons in Hnd as [Hnotin Hnd].
    pose proof (reachable_wf _ _ _ Hr) as Hwf.
    pose proof (gateway_serves_head cfg s (rxSmsStatus id Delivered c) _ Hwf Ho Hp eq_refl)
      as Hstep.
    set (s1 := set_trace _ _) in Hstep.
    assert (Hr1 : reachable cfg w0 (Ok tt s1)) by (by eapply reach_step).
    assert (Hp1 : pending s1 = zip_with (λ id c, rxSmsStatus id Delivered c) ids chs ++ rest).
    { unfold pending, s1. simpl. by rewrite lookup_insert_eq. }
    assert (Htbl1 : receiptFor (sc s1) = delete id (receiptFor (sc s))).
    { unfold s1. simpl. unfold spec_smsDelivered. simpl.
      destruct (receiptFor (sc s) !! id) eqn:Hl; simpl; [done|]. by rewrite delete_id. }
    assert (Hout1 : outbound (world s1)
                    = outbound (world s) ++ option_list (receiptFor (sc s) !! id)).
    { unfold s1. simpl. unfold spec_smsDelivered. simpl.
      destruct (receiptFor (sc s) !! id) eqn:Hl; simpl; [done|]. by rewrite app_nil_r. }
    assert (Hres1 : (translation (rxSmsStatus id Delivered c) (store s)).1 = None).
    { simpl. unfold spec_smsDelivered. by destruct (st_receiptFor (store s) !! id). }
    destruct (IH chs s1 rest Hr1 Ho ltac:(lia) Hnd Hp1)
      as (s' & Hrun & Hp' & Hgone & Hkeep & Hout & Htr & Hgd & Hcl).
    exists s'. split.
    { change (gatewayDead s1) with (gatewayDead s) in Hrun.
      rewrite length_cons, replicate_S, run_cons. cbn [step_proc].
      rewrite Hstep. exact Hrun. }
    split; [done|]. split.
    { intros id' [->|Hin]%elem_of_cons; [|by apply Hgone].
      rewrite (Hkeep _ Hnotin), Htbl1. apply lookup_delete_eq. }
    split.
    { intros k Hk. apply not_elem_of_cons in Hk as [Hne Hk].
      rewrite (Hkeep _ Hk), Htbl1. by apply lookup_delete_ne. }
    split.
    { rewrite Hout, Hout1, Htbl1, omap_lookup_delete by done. simpl.
      rewrite <- app_assoc. by destruct (receiptFor (sc s) !! id). }
    split.
    { rewrite Htr. unfold s1. cbn [trace set_trace]. rewrite Hres1.
      rewrite fmap_cons. by rewrite <- app_assoc. }
    done.
Qed.

Lemma omap_all_present (tbl : gmap string Message) (ids : list string) :
  (∀ id, id ∈ ids → is_Some (tbl !! id)) →
  length (omap (λ id, tbl !! id) ids) = length ids.
Proof.
  induction ids as [|id ids IH]; intros Hin; [done|].
  destruct (Hin id ltac:(by left)) as [m Hm]. simpl. rewrite Hm. simpl.
  f_equal. apply IH. intros id' Hin'. apply Hin. by right.
Qed.

(** C9.  The table under concurrent use.  (1) Activities that take the
    mutex around each operation exclude each other, every interleaving of
    their micro-steps has the effect of the operations run atomically in
    some order, and every interleaving can be completed.  (2) For
    find-and-remove on distinct identifiers that are all present, in every
    interleaving each entry is either still in the table or was handed to
    the one activity that asked for it, entries under other keys are not
    touched, and once all activities are done every entry has been removed
    exactly once.  (3) Through the dispatch loop, Delivered events for
    distinct identifiers that are all present are served one after the
    other: each finds its entry, all are removed, the others remain. *)
Theorem table_safe_under_concurrent_use :
  (∀ tbl ops sch st,
     act_run sch (start tbl ops) = Some st →
     excl st
     ∧ (∃ asch, atomic_run asch (abstract (start tbl ops)) = Some (abstract st))
     ∧ (∃ sch' st', act_run sch' st = Some st'
                    ∧ Forall (λ a, finished (act_stage a)) (sh_acts st')))
  ∧ (∀ tbl ids sch st,
       NoDup ids →
       (∀ id, id ∈ ids → is_Some (tbl !! id)) →
       act_run sch (start tbl (takeIfPresent <$> ids)) = Some st →
       (∀ i id, ids !! i = Some id →
          ∃ stg, sh_acts st !! i = Some (mkActivity (takeIfPresent id) stg)
                 ∧ ((outcome stg = None ∧ sh_table st !! id = tbl !! id)
                    ∨ (outcome stg = Some (tbl !! id) ∧ sh_table st !! id = None)))
       ∧ (∀ k, k ∉ ids → sh_table st !! k = tbl !! k)
       ∧ (Forall (λ a, finished (act_stage a)) (sh_acts st) →
            sh_acts st
            = (λ id, mkActivity (takeIfPresent id) (Finished (tbl !! id))) <$> ids
            ∧ (∀ id, id ∈ ids → sh_table st !! id = None)))
  ∧ (∀ cfg (w0 : World P) ids chs s rest,
       reachable cfg w0 (Ok tt s) →
       gatewayDead s ∉ closed s →
       length chs = length ids →
       NoDup ids →
       (∀ id, id ∈ ids → is_Some (receiptFor (sc s) !! id)) →
       pending s = zip_with (λ id c, rxSmsStatus id Delivered c) ids chs ++ rest →
       ∃ s', run (replicate (length ids) (GwRecvSms (gatewayDead s))) (Ok tt s)
             = Some (Ok tt s')
             ∧ pending s' = rest
             ∧ (∀ id, id ∈ ids → receiptFor (sc s') !! id = None)
             ∧ (∀ k, k ∉ ids → receiptFor (sc s') !! k = receiptFor (sc s) !! k)
             ∧ outbound (world s')
               = outbound (world s) ++ omap (λ id, receiptFor (sc s) !! id) ids
             ∧ length (omap (λ id, receiptFor (sc s) !! id) ids) = length ids
             ∧ trace s' = trace s ++ ((λ c, ChanSend c None) <$> chs)).
Proof.
  split; [|split].
  - intros tbl ops sch st Hrun.
    destruct (act_run_refines _ _ _ (excl_start tbl ops) Hrun) as [Hex Habs].
    split; [done|]. split; [done|]. by apply (excl_completes (work st)).
  - intros tbl ids sch st Hnd Hin Hrun.
    destruct (act_run_refines _ _ _ (excl_start tbl _) Hrun) as [Hex [asch Hasch]].
    pose proof (takes_inv_run _ _ _ _ _ Hnd (takes_inv_start tbl ids) Hasch)
      as (Hacts & Hrest & Hlen).
    simpl in Hacts, Hrest, Hlen. rewrite length_fmap in Hlen.
    assert (Hmicro : ∀ i id, ids !! i = Some id →
          ∃ stg, sh_acts st !! i = Some (mkActivity (takeIfPresent id) stg)
                 ∧ ((outcome stg = None ∧ sh_table st !! id = tbl !! id)
                    ∨ (outcome stg = Some (tbl !! id) ∧ sh_table st !! id = None))).
    { intros i id Hi.
      destruct (Hacts i id Hi) as [[Hl Ht]|[Hl Ht]];
        apply list_lookup_fmap_Some in Hl as ([o stg] & [= -> Ho] & Ha);
        exists stg; (split; [done|]); [left|right]; done. }
    split; [exact Hmicro|]. split; [exact Hrest|].
    intros Hfin. split.
    + apply list_eq. intros i. rewrite list_lookup_fmap.
      destruct (ids !! i) as [id|] eqn:Hi; simpl.
      * destruct (Hmicro i id Hi) as (stg & Ha & Hcase). rewrite Ha.
        rewrite Forall_forall in Hfin.
        assert (Hf : finished stg).
        { apply (Hfin (mkActivity (takeIfPresent id) stg)).
          by eapply list_elem_of_lookup_2. }
        destruct stg as [| |r|r|r]; try done. simpl in Hcase.
        destruct Hcase as [[? _]|[[= ->] _]]; done.
      * apply lookup_ge_None. rewrite Hlen. by apply lookup_ge_None.
    + intros id [i Hi]%list_elem_of_lookup.
      destruct (Hmicro i id Hi) as (stg & Ha & Hcase).
      rewrite Forall_forall in Hfin.
      assert (Hf : finished stg).
      { apply (Hfin (mkActivity (takeIfPresent id) stg)).
        by eapply list_elem_of_lookup_2. }
      destruct stg as [| |r|r|r]; try done. simpl in Hcase.
      destruct Hcase as [[? _]|[_ ?]]; done.
  - intros cfg w0 ids chs s rest Hr Ho Hlen Hnd Hin Hp.
    destruct (delivered_events_served cfg w0 ids chs s rest Hr Ho Hlen Hnd Hp)
      as (s' & Hrun & Hp' & Hgone & Hkeep & Hout & Htr & _).
    exists s'. repeat (split; [done|]). split; [|done].
    by apply omap_all_present.
Qed.

End Delivered.

(** ** The supervisor and the turns of the Gateway, step by step *)

Lemma closes_app t1 t2 : closes (t1 ++ t2) = closes t1 ++ closes t2.
Proof. apply omap_app. Qed.

Lemma started_app t t1 t2 : started t (t1 ++ t2) = started t t1 ++ started t t2.
Proof. apply omap_app. Qed.

Lemma restarts_app t t1 t2 : restarts t (t1 ++ t2) = (restarts t t1 + restarts t t2)%nat.
Proof. unfold restarts. by rewrite omap_app, length_app. Qed.

Lemma sleeps_app t1 t2 : sleeps (t1 ++ t2) = sleeps t1 ++ sleeps t2.
Proof. apply omap_app. Qed.

Lemma starts_started t tr : starts t tr = length (started t tr).
Proof. reflexivity. Qed.

Section Supervision.
Context {W : Type} `{handlers : Handlers W}.

Lemma supervised_Main cfg (w : W) s : Main cfg w = Ok tt s → supervised s.
Proof.
  intros HM. destruct (SmsProvider cfg) as [prov [e|]] eqn:Hp.
  - destruct (Main_no_provider cfg w prov e Hp) as (s' & Hs'). congruence.
  - revert HM. unfold Main, Main_init, runHttpProcess, bind, get. simpl. rewrite Hp. simpl.
    intros [= <-]. constructor; simpl.
    + by intros [].
    + intros [] c; simpl; intros Hc%list_elem_of_singleton; done.
    + intros [] c; simpl; intros ->%list_elem_of_singleton; lia.
    + intros []; simpl; apply NoDup_singleton.
    + intros c. split; [by intros ?%elem_of_nil|set_solver].
    + constructor.
    + by intros c ?%elem_of_nil.
    + by intros [].
    + done.
Qed.


(** Steps that start nothing, close nothing and do not sleep. *)
Lemma supervised_quiet (s s' : Sys W) pre :
  supervised s →
  closes pre = [] → (∀ t, started t pre = []) → (∀ t, restarts t pre = 0%nat) →
  sleeps pre = [] →
  trace s' = trace s ++ pre → closed s' = closed s → (∀ t, watched t s' = watched t s) →
  (nextCh s ≤ nextCh s')%nat →
  supervised s'.
Proof.
  intros [Hl Ho Hb Hsn Hcl Hn Hcs Hr Hsl] Hpc Hps Hpr Hpsl Ht Hc Hw Hnx.
  constructor; rewrite ?Ht, ?Hc.
  - intros t. by rewrite Hw, started_app, Hps, app_nil_r.
  - intros t c. rewrite Hw, started_app, Hps, app_nil_r. apply Ho.
  - intros t c. rewrite started_app, Hps, app_nil_r. intros Hin%Hb. lia.
  - intros t. by rewrite started_app, Hps, app_nil_r.
  - intros c. rewrite closes_app, Hpc, app_nil_r. apply Hcl.
  - by rewrite closes_app, Hpc, app_nil_r.
  - intros c. rewrite closes_app, Hpc, app_nil_r. intros Hin.
    destruct (Hcs c Hin) as [t Hin']. exists t. rewrite started_app. apply elem_of_app. by left.
  - intros t. rewrite starts_app, restarts_app, Hpr, (starts_started t pre), Hps. simpl.
    rewrite !Nat.add_0_r. apply Hr.
  - by rewrite sleeps_app, restarts_app, Hpsl, Hpr, app_nil_r, Nat.add_0_r.
Qed.

(** Line 65, 68 or 72: [Main] has found the task dead and starts it again. *)
Lemma supervised_restart t (s s' : Sys W) pre :
  supervised s → watched t s ∈ closed s →
  closes pre = [] → sleeps pre = (if decide (t = Xmpp) then [1 * Second] else []) →
  trace s' = trace s ++ LogPrintf (restart_msg t) [] :: pre ++ [Start t (nextCh s)] →
  (∀ t', started t' pre = []) → (∀ t', restarts t' pre = 0%nat) →
  closed s' = closed s →
  (∀ t', watched t' s' = if decide (t' = t) then nextCh s else watched t' s) →
  nextCh s' = S (nextCh s) →
  supervised s'.
Proof.
  intros [Hl Ho Hb Hsn Hcl Hn Hcs Hr Hsl] Hdead Hpc Hpsl Ht Hps Hpr Hc Hw Hnx.
  assert (Hst : ∀ t', started t' (trace s') =
                     started t' (trace s) ++ if decide (t' = t) then [nextCh s] else []).
  { intros t'. rewrite Ht, started_app. f_equal.
    change (LogPrintf (restart_msg t) [] :: pre ++ [Start t (nextCh s)])
      with ([LogPrintf (restart_msg t) []] ++ pre ++ [Start t (nextCh s)]).
    rewrite !started_app, Hps. simpl.
    destruct (decide (t = t')) as [->|Hne].
    - by rewrite decide_True.
    - by rewrite decide_False by done. }
  assert (Hrs : ∀ t', restarts t' (trace s') =
                     (restarts t' (trace s) + if decide (t' = t) then 1 else 0)%nat).
  { intros t'. rewrite Ht, restarts_app. f_equal.
    change (LogPrintf (restart_msg t) [] :: pre ++ [Start t (nextCh s)])
      with ([LogPrintf (restart_msg t) []] ++ pre ++ [Start t (nextCh s)]).
    rewrite !restarts_app, Hpr. simpl. rewrite Nat.add_0_r.
    destruct t, t'; reflexivity. }
  constructor.
  - intros t'. rewrite Hst, Hw. destruct (decide (t' = t)).
    + by rewrite last_snoc.
    + rewrite app_nil_r. apply Hl.
  - intros t' c. rewrite Hst, Hw, Hc. destruct (decide (t' = t)) as [->|Hne].
    + intros [Hin| ->%list_elem_of_singleton]%elem_of_app Hne; [|done].
      destruct (decide (c = watched t s)) as [->|Hne']; [done|]. by apply (Ho t).
    + rewrite app_nil_r. apply Ho.
  - intros t' c. rewrite Hst, Hnx.
    intros [Hin%Hb|Hin]%elem_of_app; [lia|].
    destruct (decide (t' = t)); [|by apply elem_of_nil in Hin].
    apply list_elem_of_singleton in Hin as ->. lia.
  - intros t'. rewrite Hst. destruct (decide (t' = t)); [|by rewrite app_nil_r].
    apply NoDup_app. split; [done|]. split; [|apply NoDup_singleton].
    intros c Hin%Hb ->%list_elem_of_singleton. lia.
  - intros c. rewrite Hc, <- Hcl, Ht, closes_app.
    change (LogPrintf (restart_msg t) [] :: pre ++ [Start t (nextCh s)])
      with ([LogPrintf (restart_msg t) []] ++ pre ++ [Start t (nextCh s)]).
    rewrite !closes_app, Hpc. simpl. by rewrite app_nil_r.
  - rewrite Ht, closes_app.
    change (LogPrintf (restart_msg t) [] :: pre ++ [Start t (nextCh s)])
      with ([LogPrintf (restart_msg t) []] ++ pre ++ [Start t (nextCh s)]).
    rewrite !closes_app, Hpc. simpl. by rewrite app_nil_r.
  - intros c. rewrite Ht, closes_app.
    change (LogPrintf (restart_msg t) [] :: pre ++ [Start t (nextCh s)])
      with ([LogPrintf (restart_msg t) []] ++ pre ++ [Start t (nextCh s)]).
    rewrite !closes_app, Hpc. simpl. rewrite app_nil_r.
    intros Hin. destruct (Hcs c Hin) as [t' Ht']. exists t'.
    rewrite <- Ht, Hst. apply elem_of_app. by left.
  - intros t'. rewrite starts_started, Hst, Hrs, length_app, <- starts_started, Hr.
    destruct (decide (t' = t)); simpl; lia.
  - rewrite Hrs, Ht, sleeps_app, Hsl.
    change (LogPrintf (restart_msg t) [] :: pre ++ [Start t (nextCh s)])
      with ([LogPrintf (restart_msg t) []] ++ pre ++ [Start t (nextCh s)]).
    rewrite !sleeps_app, Hpsl. simpl. rewrite app_nil_r.
    destruct t; simpl.
    + by rewrite app_nil_r, Nat.add_0_r.
    + by rewrite app_nil_r, Nat.add_0_r.
    + rewrite Nat.add_1_r. simpl. by rewrite replicate_cons_app.
Qed.

(** A task ends: the health channel that [Main] watches for it is closed. *)
Lemma supervised_close t (s s' : Sys W) pre :
  supervised s → watched t s ∉ closed s →
  closes pre = [] → (∀ t', started t' pre = []) → (∀ t', restarts t' pre = 0%nat) →
  sleeps pre = [] →
  trace s' = trace s ++ pre ++ [ChanClose (watched t s)] →
  closed s' = {[watched t s]} ∪ closed s →
  (∀ t', watched t' s' = watched t' s) →
  (nextCh s ≤ nextCh s')%nat →
  supervised s'.
Proof.
  intros [Hl Ho Hb Hsn Hcl Hn Hcs Hr Hsl] Hopen Hpc Hps Hpr Hpsl Ht Hc Hw Hnx.
  constructor; rewrite ?Ht, ?Hc.
  - intros t'. rewrite Hw, !started_app, Hps. simpl. by rewrite app_nil_r.
  - intros t' c. rewrite Hw, !started_app, Hps. simpl. rewrite app_nil_r.
    intros Hin Hne. apply elem_of_union_r. by apply (Ho t').
  - intros t' c. rewrite !started_app, Hps. simpl. rewrite app_nil_r. intros Hin%Hb. lia.
  - intros t'. rewrite !started_app, Hps. simpl. by rewrite app_nil_r.
  - intros c. rewrite !closes_app, Hpc. simpl.
    rewrite elem_of_app, list_elem_of_singleton, elem_of_union, elem_of_singleton, Hcl.
    tauto.
  - rewrite !closes_app, Hpc. simpl. apply NoDup_app. split; [done|].
    split; [|apply NoDup_singleton].
    intros c Hin ->%list_elem_of_singleton. by apply Hopen, Hcl.
  - intros c. rewrite !closes_app, Hpc. simpl.
    intros [Hin| ->%list_elem_of_singleton]%elem_of_app.
    + destruct (Hcs c Hin) as [t' Ht']. exists t'.
      rewrite !started_app. apply elem_of_app. by left.
    + exists t. rewrite !started_app. apply elem_of_app. left.
      specialize (Hl t). by apply last_Some_elem_of in Hl.
  - intros t'. rewrite !starts_app, !restarts_app, Hpr. simpl.
    rewrite (starts_started t' pre), Hps. simpl. rewrite !Nat.add_0_r. apply Hr.
  - rewrite !sleeps_app, !restarts_app, Hpsl, Hpr. simpl.
    by rewrite app_nil_r, Nat.add_0_r.
Qed.

Lemma step_supervised cfg l (s s' : Sys W) :
  wf cfg s → supervised s → step l s = Some (Ok tt s') → supervised s'.
Proof.
  intros Hwf Hsup Hs. destruct l; simpl in Hs.
  - (* GwRecvSms *)
    destruct (find_gateway h s) as [g|] eqn:Hg; simpl in Hs; [|done].
    destruct (wf_find_gateway _ _ _ _ Hwf Hg) as (-> & Hopen & -> & Hgs). simpl in Hs.
    destruct (dequeue 1%nat (smsQ s)) as [[ev q]|] eqn:Hq; simpl in Hs; [|done].
    rewrite store_set_smsQ in Hs.
    destruct (gatewayRxSms ev (store s)) as [[st' acts] c] eqn:Hr.
    destruct c.
    2:{ exfalso. unfold gatewayRxSms in Hr. destruct ev; simpl in Hr;
        repeat case_match; simplify_eq. }
    2:{ exfalso. exec_in Hs. destruct (perform_all _ _); simplify_eq. }
    apply gatewayRxSms_Ok in Hr as [r ->].
    exec_in Hs. injection Hs as <-.
    apply (supervised_quiet s _ [ChanSend (ErrCh ev) r]); try done; simpl; lia.
  - (* GwRecvXmpp *)
    destruct (find_gateway h s) as [g|] eqn:Hg; simpl in Hs; [|done].
    destruct (wf_find_gateway _ _ _ _ Hwf Hg) as (-> & Hopen & -> & Hgs). simpl in Hs.
    destruct (dequeue 2%nat (xmppQ s)) as [[msg q]|] eqn:Hq; simpl in Hs; [|done].
    rewrite store_set_xmppQ in Hs. unfold gatewayRxXmpp in Hs.
    destruct (sc_xmpp2sms msg (store s)) as [[e|] st'].
    + exec_in Hs. injection Hs as <-.
      apply (supervised_close Gateway s _
               [LogPrintf "ERROR: converting XMPP to SMS: %s" [ArgErr e]]);
        try done; simpl; try lia; by rewrite <- app_assoc.
    + exec_in Hs. injection Hs as <-.
      apply (supervised_quiet s _ []); try done; simpl; try lia; by rewrite app_nil_r.
  - (* MainGateway *)
    exec_in Hs. destruct (decide (gatewayDead s ∈ closed s)) as [Hc|]; [|done].
    injection Hs as <-.
    apply (supervised_restart Gateway s _ []); try done.
    + simpl. by rewrite <- app_assoc.
    + by intros [].
  - (* MainHttp *)
    exec_in Hs. destruct (decide (httpDead s ∈ closed s)) as [Hc|]; [|done].
    rewrite (wf_config _ _ Hwf) in Hs.
    pose proof (wf_provider _ _ Hwf) as Hp.
    destruct (SmsProvider cfg) as [prov [e|]]; [done|]. simpl in Hs.
    injection Hs as <-.
    apply (supervised_restart Http s _ []); try done.
    + simpl. by rewrite <- app_assoc.
    + by intros [].
  - (* MainXmpp *)
    exec_in Hs. destruct (decide (xmppDead s ∈ closed s)) as [Hc|]; [|done].
    injection Hs as <-.
    apply (supervised_restart Xmpp s _ [Sleep (1 * Second)]); try done.
    + simpl. by rewrite <- !app_assoc.
    + by intros [].
  - (* HttpSend *)
    destruct (find_http h s) as [p|] eqn:Hp; simpl in Hs; [|done].
    exec_in Hs. injection Hs as <-.
    apply (supervised_quiet s _ []); try done; simpl; try lia; by rewrite app_nil_r.
  - (* HttpRecvErr *)
    destruct (dequeue errCh (errQ s)) as [[v q]|] eqn:Hq; simpl in Hs; [|done].
    injection Hs as <-.
    apply (supervised_quiet s _ []); try done; simpl; try lia; by rewrite app_nil_r.
  - (* XmppSend *)
    destruct (find_xmpp h s) as [x|] eqn:Hx; simpl in Hs; [|done].
    injection Hs as <-.
    apply (supervised_quiet s _ []); try done; simpl; try lia; by rewrite app_nil_r.
  - (* HttpDies *)
    destruct (find_http h s) as [p|] eqn:Hp; simpl in Hs; [|done].
    destruct (wf_find_http _ _ _ _ Hwf Hp) as (-> & Hopen & Hps & Hh & Hrx1).
    exec_in Hs. injection Hs as <-.
    apply (supervised_close Http s _ []); try done; simpl; lia.
  - (* XmppDies *)
    destruct (find_xmpp h s) as [x|] eqn:Hx; simpl in Hs; [|done].
    destruct (wf_find_xmpp _ _ _ _ Hwf Hx) as (-> & Hopen & Hxs & Hh & Htx1 & Hrx1).
    exec_in Hs. injection Hs as <-.
    apply (supervised_close Xmpp s _ []); try done; simpl; lia.
Qed.

Lemma reachable_supervised cfg (w : W) s : reachable cfg w (Ok tt s) → supervised s.
Proof.
  intros Hr. remember (Ok tt s) as p eqn:Hp. revert s Hp.
  induction Hr as [|l s1 p Hr IH Hs]; intros s Hp.
  - by apply (supervised_Main cfg w).
  - subst p. apply (step_supervised cfg l s1); [|by apply IH|done].
    by apply (reachable_wf cfg w).
Qed.

Lemma wf_alive cfg (s : Sys W) t :
  wf cfg s → alive t s = if decide (watched t s ∈ closed s) then [] else [watched t s].
Proof.
  intros Hwf. destruct t; simpl.
  - destruct (wf_gateway _ _ Hwf) as [_ Hg].
    destruct (decide (gatewayDead s ∈ closed s)); by rewrite Hg.
  - destruct (wf_http _ _ Hwf) as [_ Hg].
    destruct (decide (httpDead s ∈ closed s)) as [|]; [by rewrite Hg|].
    destruct Hg as (p & -> & <- & _). done.
  - destruct (wf_xmpp _ _ Hwf) as [_ Hg].
    destruct (decide (xmppDead s ∈ closed s)) as [|]; [by rewrite Hg|].
    destruct Hg as (x & -> & <- & _). done.
Qed.

(** What the actions of one turn of the loop do to the program. *)
Lemma perform_all_spec acts (s : Sys W) :
  ∃ s', perform_all acts s = Ok tt s'
    ∧ trace s' = trace s ++ acts
    ∧ sc s' = sc s ∧ world s' = world s ∧ closed s' = closed s
    ∧ gateways s' = gateways s ∧ xmpps s' = xmpps s ∧ https s' = https s
    ∧ nextCh s' = nextCh s ∧ smsQ s' = smsQ s ∧ xmppQ s' = xmppQ s
    ∧ gatewayDead s' = gatewayDead s ∧ xmppDead s' = xmppDead s ∧ httpDead s' = httpDead s
    ∧ (posted acts = [] → errQ s' = errQ s).
Proof.
  revert s. induction acts as [|a acts IH]; intros s.
  - exists s. simpl. rewrite app_nil_r. repeat split.
  - assert (∃ s1, perform a s = Ok tt s1 ∧ trace s1 = trace s ++ [a]
              ∧ sc s1 = sc s ∧ world s1 = world s ∧ closed s1 = closed s
              ∧ gateways s1 = gateways s ∧ xmpps s1 = xmpps s ∧ https s1 = https s
              ∧ nextCh s1 = nextCh s ∧ smsQ s1 = smsQ s ∧ xmppQ s1 = xmppQ s
              ∧ gatewayDead s1 = gatewayDead s ∧ xmppDead s1 = xmppDead s
              ∧ httpDead s1 = httpDead s
              ∧ (posted [a] = [] → errQ s1 = errQ s))
      as (s1 & Hs1 & Ht & Hsc & Hw & Hc & Hg & Hx & Hh & Hn & Hsq & Hxq & Hgd & Hxd & Hhd & He).
    { destruct a; eexists; (split; [reflexivity|]); simpl; repeat split; done. }
    destruct (IH s1) as (s' & Hs' & Ht' & Hsc' & Hw' & Hc' & Hg' & Hx' & Hh' & Hn' & Hsq'
                         & Hxq' & Hgd' & Hxd' & Hhd' & He').
    exists s'. split.
    { simpl. unfold bind. by rewrite Hs1. }
    rewrite Ht', Ht, <- app_assoc.
    repeat split; try congruence.
    intros Hp. change (a :: acts) with ([a] ++ acts) in Hp. rewrite posted_app in Hp.
    apply app_eq_nil in Hp as [Hp1 Hp2]. rewrite He', He; done.
Qed.

(** One turn of the loop as a whole: what it leaves behind, by the way the
    turn ended. *)
Lemma gateway_turn_spec g st' acts c (s : Sys W) :
  ∃ s', gateway_turn g (st', acts, c) s
        = match c with Panic => Panicked s' | _ => Ok tt s' end
    ∧ trace s' = trace s ++ acts
                 ++ match c with Continue => [] | _ => [ChanClose (g_healthCh g)] end
    ∧ closed s' = match c with Continue => closed s | _ => {[g_healthCh g]} ∪ closed s end
    ∧ gateways s' = match c with
                    | Continue => gateways s
                    | _ => filter (λ g', g_healthCh g' ≠ g_healthCh g) (gateways s)
                    end
    ∧ store s' = st'
    ∧ sc s' = with_receiptFor (st_receiptFor st') (sc s)
    ∧ xmpps s' = xmpps s ∧ https s' = https s
    ∧ nextCh s' = nextCh s ∧ smsQ s' = smsQ s ∧ xmppQ s' = xmppQ s
    ∧ gatewayDead s' = gatewayDead s ∧ xmppDead s' = xmppDead s ∧ httpDead s' = httpDead s
    ∧ (posted acts = [] → errQ s' = errQ s).
Proof.
  destruct (perform_all_spec acts (put_store st' s))
    as (s1 & Hs1 & Ht & Hsc & Hw & Hc & Hg & Hx & Hh & Hn & Hsq & Hxq & Hgd & Hxd & Hhd & He).
  simpl in *.
  destruct c.
  - exists s1. split.
    { unfold gateway_turn, bind, modify. by rewrite Hs1. }
    rewrite app_nil_r. repeat split; try done.
    destruct st' as [r w']. unfold store. simpl in *. by rewrite Hsc, Hw.
  - eexists. split.
    { unfold gateway_turn, bind, modify. rewrite Hs1. reflexivity. }
    unfold store. simpl. rewrite Ht, Hc, Hg, Hsc, Hw, <- app_assoc.
    destruct st' as [r w']. repeat split; try done.
  - eexists. split.
    { unfold gateway_turn, bind, modify. rewrite Hs1. reflexivity. }
    unfold store. simpl. rewrite Ht, Hc, Hg, Hsc, Hw, <- app_assoc.
    destruct st' as [r w']. repeat split; try done.
Qed.

(** The two ways a turn on an SMS event ends (lines 88-100). *)
Lemma gatewayRxSms_shape ev (st st' : Store W) acts c :
  gatewayRxSms ev st = (st', acts, c) →
  (enumerated ev ∧ c = Continue ∧ st' = (translation ev st).2
   ∧ acts = [ChanSend (ErrCh ev) (translation ev st).1])
  ∨ (¬ enumerated ev ∧ c = Panic ∧ st' = st
     ∧ ∃ fmt args, acts = [LogPrintf fmt args; Panicking fmt args] ∧ args ≠ []).
Proof.
  destruct ev as [sms e|id status e|e]; simpl.
  - destruct (sc_sms2xmpp sms st) as [r st1]. intros [= <- <- <-]. by left.
  - destruct (decide (status = smsDelivered)) as [->|Hne].
    + destruct (sc_smsDelivered id st) as [r st1]. intros [= <- <- <-]. by left.
    + intros [= <- <- <-]. right. repeat split; eauto.
  - intros [= <- <- <-]. right. repeat split; eauto.
Qed.

(** The two ways a turn on an XMPP message ends (lines 102-106). *)
Lemma gatewayRxXmpp_shape msg (st st' : Store W) acts c :
  gatewayRxXmpp msg st = (st', acts, c) →
  st' = (sc_xmpp2sms msg st).2
  ∧ (((sc_xmpp2sms msg st).1 = None ∧ c = Continue ∧ acts = [])
     ∨ (∃ e, (sc_xmpp2sms msg st).1 = Some e ∧ c = Return
             ∧ acts = [LogPrintf "ERROR: converting XMPP to SMS: %s" [ArgErr e]])).
Proof.
  unfold gatewayRxXmpp. destruct (sc_xmpp2sms msg st) as [[e|] st1]; intros [= <- <- <-].
  - split; [done|]. right. eauto.
  - split; [done|]. by left.
Qed.

(** A step that ends the program is a turn of the Gateway on an event it
    does not expect, or [Main] restarting the HTTP task without a provider. *)
Lemma step_Panicked_inv l (s s1 : Sys W) :
  step l s = Some (Panicked s1) →
  (∃ h g ev q fmt args,
      l = GwRecvSms h ∧ find_gateway h s = Some g
      ∧ dequeue (g_rxSmsCh g) (smsQ s) = Some (ev, q)
      ∧ ¬ enumerated ev
      ∧ trace s1 = trace s ++ [LogPrintf fmt args; Panicking fmt args; ChanClose h]
      ∧ args ≠ []
      ∧ closed s1 = {[h]} ∪ closed s
      ∧ store s1 = store s ∧ errQ s1 = errQ s)
  ∨ (∃ prov e,
      l = MainHttp ∧ httpDead s ∈ closed s
      ∧ SmsProvider (config (sc s)) = (prov, Some e)
      ∧ trace s1 = trace s ++ [LogPrintf "HTTP died. Restarting" [];
                               Panicking "Couldn't choose an SMS provider: %s" [ArgErr e]]
      ∧ closed s1 = closed s ∧ store s1 = store s ∧ https s1 = https s).
Proof.
  intros Hs. destruct l; simpl in Hs.
  - left.
    destruct (find_gateway h s) as [g|] eqn:Hg; simpl in Hs; [|done].
    destruct (dequeue (g_rxSmsCh g) (smsQ s)) as [[ev q]|] eqn:Hq; simpl in Hs; [|done].
    rewrite store_set_smsQ in Hs.
    destruct (gatewayRxSms ev (store s)) as [[st' acts] c] eqn:Hr.
    destruct (gateway_turn_spec g st' acts c (set_smsQ q s))
      as (s' & Hp & Ht & Hc & _ & Hst & _ & _ & _ & _ & _ & _ & _ & _ & _ & He).
    rewrite Hp in Hs.
    apply gatewayRxSms_shape in Hr
      as [(_ & -> & _)|(Hne & -> & -> & fmt & args & -> & Hargs)]; [done|].
    injection Hs as <-. apply find_gateway_health in Hg as Hh. destruct Hh as [Hh _].
    rewrite Hh in Ht, Hc. exists h, g, ev, q, fmt, args.
    repeat split; try done. by apply He.
  - destruct (find_gateway h s) as [g|] eqn:Hg; simpl in Hs; [|done].
    destruct (dequeue (g_rxXmppCh g) (xmppQ s)) as [[msg q]|] eqn:Hq; simpl in Hs; [|done].
    destruct (gatewayRxXmpp msg (store (set_xmppQ q s))) as [[st' acts] c] eqn:Hr.
    destruct (gateway_turn_spec g st' acts c (set_xmppQ q s)) as (s' & Hp & _).
    rewrite Hp in Hs.
    apply gatewayRxXmpp_shape in Hr as [_ [(_ & -> & _)|(e & _ & -> & _)]]; done.
  - apply (step_Main_inv MainGateway) in Hs as [_ Hs]; [|by left].
    destruct (Main_gatewayDead_spec s) as (s' & Hs' & _). congruence.
  - right. apply (step_Main_inv MainHttp) in Hs as [Hc Hs]; [|by right; left].
    destruct (SmsProvider (config (sc s))) as [prov [e|]] eqn:Hp.
    + exists prov, e. split; [done|]. split; [done|]. split; [done|].
      revert Hs. unfold Main_httpDead, runHttpProcess, bind, get, emit, modify. simpl.
      rewrite Hp. simpl. intros [= ->]. simpl. rewrite <- app_assoc. repeat split.
    + destruct (Main_httpDead_spec s prov Hp) as (s' & Hs' & _). congruence.
  - apply (step_Main_inv MainXmpp) in Hs as [_ Hs]; [|by right; right].
    destruct (Main_xmppDead_spec s) as (s' & Hs' & _). congruence.
  - destruct (find_http h s) as [p|]; simpl in Hs; done.
  - destruct (dequeue errCh (errQ s)) as [[v q]|]; simpl in Hs; done.
  - destruct (find_xmpp h s) as [x|]; simpl in Hs; done.
  - destruct (find_http h s) as [p|]; simpl in Hs; done.
  - destruct (find_xmpp h s) as [x|]; simpl in Hs; done.
Qed.

Lemma with_receiptFor_id (c : Component) : c = with_receiptFor (receiptFor c) c.
Proof. by destruct c. Qed.

(** What no step changes, and where the incarnations of the boundary
    tasks come from. *)
Lemma step_frame l (s : Sys W) p :
  step l s = Some p →
  sc (state_of p) = with_receiptFor (receiptFor (sc (state_of p))) (sc s)
  ∧ (∀ x, x ∈ xmpps (state_of p) → x ∈ xmpps s ∨
       x = {| x_host := XmppHost (config (sc s)); x_port := XmppPort (config (sc s));
              x_name := ComponentName (config (sc s));
              x_secret := SharedSecret (config (sc s));
              gatewayTx := txXmppCh (sc s); gatewayRx := rxXmppCh (sc s);
              x_healthCh := nextCh s |})
  ∧ (∀ q, q ∈ https (state_of p) → q ∈ https s ∨
       q = {| h_host := HttpHost (config (sc s)); h_port := HttpPort (config (sc s));
              h_provider := (SmsProvider (config (sc s))).1; h_rxSmsCh := rxSmsCh (sc s);
              h_auth := CanHttpAuth (config (sc s)); h_healthCh := nextCh s |})
  ∧ ((∀ h, l ≠ GwRecvSms h) → (∀ h, l ≠ GwRecvXmpp h) → store (state_of p) = store s).
Proof.
  intros Hs. destruct l; simpl in Hs.
  - destruct (find_gateway h s) as [g|] eqn:Hg; simpl in Hs; [|done].
    destruct (dequeue (g_rxSmsCh g) (smsQ s)) as [[ev q]|] eqn:Hq; simpl in Hs; [|done].
    destruct (gatewayRxSms ev (store (set_smsQ q s))) as [[st' acts] c] eqn:Hr.
    destruct (gateway_turn_spec g st' acts c (set_smsQ q s))
      as (s' & Hp & _ & _ & _ & Hst & Hsc & Hx & Hh & _).
    rewrite Hp in Hs. injection Hs as <-.
    assert (Hs' : state_of (match c with Panic => Panicked s' | _ => Ok tt s' end) = s')
      by (by destruct c).
    rewrite Hs', Hx, Hh, Hsc. simpl. split; [done|]. split; [eauto|]. split; [eauto|].
    intros Hne. by destruct (Hne h).
  - destruct (find_gateway h s) as [g|] eqn:Hg; simpl in Hs; [|done].
    destruct (dequeue (g_rxXmppCh g) (xmppQ s)) as [[msg q]|] eqn:Hq; simpl in Hs; [|done].
    destruct (gatewayRxXmpp msg (store (set_xmppQ q s))) as [[st' acts] c] eqn:Hr.
    destruct (gateway_turn_spec g st' acts c (set_xmppQ q s))
      as (s' & Hp & _ & _ & _ & Hst & Hsc & Hx & Hh & _).
    rewrite Hp in Hs. injection Hs as <-.
    assert (Hs' : state_of (match c with Panic => Panicked s' | _ => Ok tt s' end) = s')
      by (by destruct c).
    rewrite Hs', Hx, Hh, Hsc. simpl. split; [done|]. split; [eauto|]. split; [eauto|].
    intros _ Hne. by destruct (Hne h).
  - apply (step_Main_inv MainGateway) in Hs as [_ ->]; [|by left].
    destruct (Main_gatewayDead_spec s)
      as (s' & -> & _ & _ & _ & _ & Hsc & Hw & _ & _ & _ & _ & Hx & Hh & _).
    simpl. unfold store. rewrite Hsc, Hw, Hx, Hh.
    split; [apply with_receiptFor_id|]. eauto.
  - apply (step_Main_inv MainHttp) in Hs as [_ ->]; [|by right; left].
    destruct (SmsProvider (config (sc s))) as [prov [e|]] eqn:Hp.
    + unfold Main_httpDead, runHttpProcess, bind, get, emit, modify. simpl.
      rewrite Hp. simpl. split; [apply with_receiptFor_id|]. eauto.
    + destruct (Main_httpDead_spec s prov Hp)
        as (s' & -> & _ & _ & Hh & _ & Hsc & Hw & _ & _ & _ & _ & _ & Hx & _).
      simpl. unfold store. rewrite Hsc, Hw, Hx, Hh.
      split; [apply with_receiptFor_id|]. split; [eauto|]. split; [|done].
      intros q [Hin| ->%list_elem_of_singleton]%elem_of_app; [by left|by right].
  - apply (step_Main_inv MainXmpp) in Hs as [_ ->]; [|by right; right].
    destruct (Main_xmppDead_spec s)
      as (s' & -> & _ & _ & Hx & _ & Hsc & Hw & _ & _ & _ & _ & _ & Hh & _).
    simpl. unfold store. rewrite Hsc, Hw, Hx, Hh.
    split; [apply with_receiptFor_id|]. split; [|eauto].
    intros x [Hin| ->%list_elem_of_singleton]%elem_of_app; [by left|by right].
  - destruct (find_http h s) as [p'|]; simpl in Hs; [|done]. injection Hs as <-.
    simpl. split; [apply with_receiptFor_id|]. eauto.
  - destruct (dequeue errCh (errQ s)) as [[v q]|]; simpl in Hs; [|done]. injection Hs as <-.
    simpl. split; [apply with_receiptFor_id|]. eauto.
  - destruct (find_xmpp h s) as [x|]; simpl in Hs; [|done]. injection Hs as <-.
    simpl. split; [apply with_receiptFor_id|]. eauto.
  - destruct (find_http h s) as [p'|]; simpl in Hs; [|done]. injection Hs as <-.
    simpl. split; [apply with_receiptFor_id|]. split; [eauto|]. split; [|done].
    intros q [_ Hin]%list_elem_of_filter. by left.
  - destruct (find_xmpp h s) as [x|]; simpl in Hs; [|done]. injection Hs as <-.
    simpl. split; [apply with_receiptFor_id|]. split; [|eauto].
    intros x' [_ Hin]%list_elem_of_filter. by left.
Qed.

(** X1.  Startup.  When the configuration yields a provider, [Main] reaches its
    loop: the receipt table is empty, the three channels of the Component
    and the three health channels are six different channels, all open, the
    tasks were started in the order Gateway, XMPP, HTTP, each runs in one
    incarnation, which [Main] watches, and nobody is blocked on a channel
    yet. *)
Theorem Main_starts_every_task cfg (w : W) prov :
  SmsProvider cfg = (prov, None) →
  ∃ s, Main cfg w = Ok tt s
       ∧ receiptFor (sc s) = ∅ ∧ world s = w
       ∧ NoDup [rxSmsCh (sc s); rxXmppCh (sc s); txXmppCh (sc s);
                gatewayDead s; xmppDead s; httpDead s]
       ∧ trace s = [Start Gateway (gatewayDead s); Start Xmpp (xmppDead s);
                    Start Http (httpDead s)]
       ∧ (∀ t, alive t s = [watched t s])
       ∧ closed s = ∅ ∧ smsQ s = ∅ ∧ xmppQ s = ∅ ∧ errQ s = ∅.
Proof.
  intros Hp. eexists. split.
  - unfold Main, Main_init, runHttpProcess, bind, get. simpl. rewrite Hp. simpl. reflexivity.
  - simpl. repeat split; try done.
    + repeat (apply NoDup_cons; split; [rewrite ?elem_of_cons, elem_of_nil; lia|]).
      apply NoDup_nil_2.
    + by intros [].
Qed.

(** X2.  Every incarnation of a boundary task, the first and each one started
    by a restart, is built from the same values: the configuration of the
    Component never changes, an XMPP process has the configured host, port,
    name and secret and the Component's two XMPP channels, and an HTTP
    process has the configured host and port, the provider the
    configuration yields, the Component's SMS channel, and credentials
    exactly when the configuration has them. *)
Theorem incarnations_built_from_config cfg (w : W) p :
  reachable cfg w p →
  config (sc (state_of p)) = cfg
  ∧ Forall (λ x, x = {| x_host := XmppHost cfg; x_port := XmppPort cfg;
                        x_name := ComponentName cfg; x_secret := SharedSecret cfg;
                        gatewayTx := txXmppCh (sc (state_of p));
                        gatewayRx := rxXmppCh (sc (state_of p));
                        x_healthCh := x_healthCh x |}) (xmpps (state_of p))
  ∧ Forall (λ q, q = {| h_host := HttpHost cfg; h_port := HttpPort cfg;
                        h_provider := (SmsProvider cfg).1;
                        h_rxSmsCh := rxSmsCh (sc (state_of p));
                        h_auth := CanHttpAuth cfg;
                        h_healthCh := h_healthCh q |}) (https (state_of p)).
Proof.
  intros Hr. induction Hr as [|l s p Hr IH Hs].
  - unfold Main, Main_init, runHttpProcess, bind, get. simpl.
    destruct (SmsProvider cfg) as [prov [e|]] eqn:Hp; simpl; rewrite ?Hp;
      repeat split; repeat constructor.
  - simpl in IH. destruct IH as (Hc & Hx & Hh).
    destruct (step_frame _ _ _ Hs) as (Hsc & Hxs & Hhs & _).
    rewrite Hsc. simpl. split; [done|]. rewrite Forall_forall in Hx. rewrite Forall_forall in Hh.
    split.
    + apply Forall_forall. intros x [Hin| ->]%Hxs; [by apply Hx|]. by rewrite Hc.
    + apply Forall_forall. intros q [Hin| ->]%Hhs; [by apply Hh|]. by rewrite Hc.
Qed.

(** X3.  Lines 98-100.  An [rxSms] value that is neither a message nor a status
    update makes the Gateway goroutine log and panic: the deferred close of
    the health channel runs, nothing is posted on the value's reply channel,
    the table is not touched, and the program has ended. *)
Theorem unexpected_rxSms_type_ends_program (s : Sys W) h g errCh q :
  find_gateway h s = Some g →
  dequeue (g_rxSmsCh g) (smsQ s) = Some (rxSmsOther errCh, q) →
  ∃ s1, step (GwRecvSms h) s = Some (Panicked s1)
        ∧ trace s1 = trace s ++ [LogPrintf "unexpected rxSms type: %#v"
                                    [ArgRxSms (rxSmsOther errCh)];
                                 Panicking "unexpected rxSms type: %#v"
                                    [ArgRxSms (rxSmsOther errCh)];
                                 ChanClose h]
        ∧ h ∈ closed s1
        ∧ posted (trace s1) = posted (trace s)
        ∧ errQ s1 = errQ s
        ∧ store s1 = store s
        ∧ ∀ l, step_proc l (Panicked s1) = None.
Proof.
  intros Hg Hq. apply find_gateway_health in Hg as Hh. destruct Hh as [Hh _].
  eexists. split.
  - simpl. rewrite Hg. simpl. rewrite Hq. simpl. reflexivity.
  - simpl. rewrite Hh. rewrite <- !app_assoc. simpl.
    repeat split.
    + apply elem_of_union_l. by apply elem_of_singleton.
    + rewrite !posted_app. simpl. by rewrite !app_nil_r.
Qed.

(** X4.  Lines 101-107.  A turn of the Gateway on an XMPP message never ends the
    program and never posts on a reply channel.  What [xmpp2sms] did to the
    table stays, whether it failed or not.  If it returned nil the turn
    leaves no trace: nothing is logged, the health channel stays as it is
    and the same incarnation goes on.  If it returned an error, that error
    is logged, the health channel is closed, and the incarnation is gone. *)
Theorem xmpp_turn_outcome (s : Sys W) h g msg q :
  find_gateway h s = Some g →
  dequeue (g_rxXmppCh g) (xmppQ s) = Some (msg, q) →
  ∃ s', step (GwRecvXmpp h) s = Some (Ok tt s')
        ∧ store s' = (sc_xmpp2sms msg (store s)).2
        ∧ posted (trace s') = posted (trace s)
        ∧ errQ s' = errQ s ∧ smsQ s' = smsQ s ∧ xmppQ s' = q
        ∧ ((sc_xmpp2sms msg (store s)).1 = None →
             trace s' = trace s ∧ closed s' = closed s ∧ gateways s' = gateways s)
        ∧ (∀ e, (sc_xmpp2sms msg (store s)).1 = Some e →
             trace s' = trace s ++ [LogPrintf "ERROR: converting XMPP to SMS: %s" [ArgErr e];
                                    ChanClose h]
             ∧ closed s' = {[h]} ∪ closed s
             ∧ find_gateway h s' = None).
Proof.
  intros Hg Hq. apply find_gateway_health in Hg as Hh. destruct Hh as [Hh _].
  simpl. rewrite Hg. simpl. rewrite Hq. simpl. rewrite store_set_xmppQ.
  destruct (gatewayRxXmpp msg (store s)) as [[st' acts] c] eqn:Hr.
  destruct (gateway_turn_spec g st' acts c (set_xmppQ q s))
    as (s' & Hp & Ht & Hc & Hgs & Hst & _ & _ & _ & _ & Hsq & Hxq & _ & _ & _ & He).
  rewrite Hp, Hh in *.
  apply gatewayRxXmpp_shape in Hr as [-> [(Hn & -> & ->)|(e & Hsome & -> & ->)]].
  - exists s'. rewrite Hn. simpl in *. rewrite app_nil_r in Ht.
    split; [done|]. split; [done|]. split; [by rewrite Ht|]. split; [by apply He|].
    repeat split; try done.
  - exists s'. rewrite Hsome. simpl in *.
    split; [done|]. split; [done|].
    split; [rewrite Ht, posted_app; simpl; by rewrite app_nil_r|].
    split; [by apply He|]. split; [done|]. split; [done|]. split; [done|].
    intros e' [= <-]. split; [done|]. split; [done|].
    unfold find_gateway. rewrite Hgs.
    destruct (list_find _ _) as [[i g']|] eqn:E; [|done].
    apply list_find_Some in E as (Hl & Hh' & _).
    apply list_elem_of_lookup_2, list_elem_of_filter in Hl as [Hne _]. done.
Qed.

(** X5.  The program is ended by a panic in two places only.  At startup, and
    when [Main] restarts the HTTP task, [runHttpProcess] panics if no
    provider can be chosen.  In the Gateway, a turn panics on an SMS event
    of an unexpected kind, after which its health channel is closed.
    Nothing else, in particular no XMPP message and no restart of the
    Gateway or of the XMPP task, ends the program. *)
Theorem panics_only_from_two_places :
  (∀ cfg (w : W) s1,
     Main cfg w = Panicked s1 →
     ∃ e, (SmsProvider cfg).2 = Some e
          ∧ last (trace s1)
            = Some (Panicking "Couldn't choose an SMS provider: %s" [ArgErr e]))
  ∧ (∀ l (s s1 : Sys W),
     step l s = Some (Panicked s1) →
     (∃ h g ev q,
         l = GwRecvSms h ∧ find_gateway h s = Some g
         ∧ dequeue (g_rxSmsCh g) (smsQ s) = Some (ev, q)
         ∧ ¬ enumerated ev
         ∧ last (trace s1) = Some (ChanClose h) ∧ h ∈ closed s1)
     ∨ (∃ e,
         l = MainHttp ∧ httpDead s ∈ closed s
         ∧ (SmsProvider (config (sc s))).2 = Some e
         ∧ last (trace s1)
           = Some (Panicking "Couldn't choose an SMS provider: %s" [ArgErr e]))).
Proof.
  split.
  - intros cfg w s1. unfold Main, Main_init, runHttpProcess, bind, get. simpl.
    destruct (SmsProvider cfg) as [prov [e|]] eqn:Hp; simpl; [|done].
    intros [= <-]. exists e. split; [done|]. simpl. reflexivity.
  - intros l s s1 Hs.
    destruct (step_Panicked_inv _ _ _ Hs)
      as [(h & g & ev & q & fmt & args & -> & Hg & Hq & Hne & Ht & _ & Hc & _)
         |(prov & e & -> & Hc & Hp & Ht & _)].
    + left. exists h, g, ev, q. repeat split; try done.
      * rewrite Ht.
        change [LogPrintf fmt args; Panicking fmt args; ChanClose h]
          with ([LogPrintf fmt args; Panicking fmt args] ++ [ChanClose h]).
        by rewrite app_assoc, last_snoc.
      * rewrite Hc. apply elem_of_union_l. by apply elem_of_singleton.
    + right. exists e. repeat split; try done.
      * by rewrite Hp.
      * rewrite Ht.
        change [LogPrintf "HTTP died. Restarting" [];
                Panicking "Couldn't choose an SMS provider: %s" [ArgErr e]]
          with ([LogPrintf "HTTP died. Restarting" []]
                ++ [Panicking "Couldn't choose an SMS provider: %s" [ArgErr e]]).
        by rewrite app_assoc, last_snoc.
Qed.

(** X6.  No channel is closed twice.  In every state of a run the channels that
    were closed are closed once each, they are health channels of
    incarnations that were started, none of them is one of the three
    channels of the Component, and the same holds when a turn of the
    Gateway ends the program with its deferred close. *)
Theorem health_channels_closed_once cfg (w : W) s :
  reachable cfg w (Ok tt s) →
  NoDup (closes (trace s))
  ∧ (∀ c, c ∈ closes (trace s) ↔ c ∈ closed s)
  ∧ (∀ c, c ∈ closed s → ∃ t, c ∈ started t (trace s))
  ∧ (∀ c, c ∈ closed s → c ∉ [rxSmsCh (sc s); rxXmppCh (sc s); txXmppCh (sc s)])
  ∧ (∀ l s1, step l s = Some (Panicked s1) → NoDup (closes (trace s1))).
Proof.
  intros Hr. pose proof (reachable_wf _ _ _ Hr) as Hwf.
  pose proof (reachable_supervised _ _ _ Hr) as Hsup.
  split; [apply (sup_closes_nodup _ Hsup)|]. split; [apply (sup_closes _ Hsup)|].
  split; [intros c Hc; by apply (sup_closes_started _ Hsup), (sup_closes _ Hsup)|].
  split.
  - intros c Hc. apply (wf_closed _ _ Hwf) in Hc.
    rewrite (wf_rxSmsCh _ _ Hwf), (wf_rxXmppCh _ _ Hwf), (wf_txXmppCh _ _ Hwf).
    rewrite !elem_of_cons, elem_of_nil. lia.
  - intros l s1 Hs.
    destruct (step_Panicked_inv _ _ _ Hs)
      as [(h & g & ev & q & fmt & args & -> & Hg & Hq & Hne & Ht & _ & Hc & _)
         |(prov & e & -> & Hc & Hp & Ht & _)].
    + destruct (wf_find_gateway _ _ _ _ Hwf Hg) as (-> & Hopen & _).
      rewrite Ht, closes_app. simpl. apply NoDup_app.
      split; [apply (sup_closes_nodup _ Hsup)|]. split; [|apply NoDup_singleton].
      intros c Hin ->%list_elem_of_singleton. by apply Hopen, (sup_closes _ Hsup).
    + rewrite Ht, closes_app. simpl. rewrite app_nil_r. apply (sup_closes_nodup _ Hsup).
Qed.

(** X7.  At most one incarnation of a task runs at a time.  In every state of a
    run, [Main] watches the health channel of the incarnation it started
    last, the health channels of the incarnations of a task are all
    different, every earlier incarnation has closed its channel, and the
    task runs, in that one incarnation, exactly while the watched channel is
    open. *)
Theorem one_incarnation_per_task cfg (w : W) s t :
  reachable cfg w (Ok tt s) →
  last (started t (trace s)) = Some (watched t s)
  ∧ NoDup (started t (trace s))
  ∧ (∀ c, c ∈ started t (trace s) → c ≠ watched t s → c ∈ closed s)
  ∧ alive t s = (if decide (watched t s ∈ closed s) then [] else [watched t s]).
Proof.
  intros Hr. pose proof (reachable_wf _ _ _ Hr) as Hwf.
  pose proof (reachable_supervised _ _ _ Hr) as Hsup.
  split; [apply (sup_last _ Hsup)|]. split; [apply (sup_started_nodup _ Hsup)|].
  split; [apply (sup_old _ Hsup)|]. by apply (wf_alive cfg).
Qed.

(** X8.  Lines 63-72.  Each task is started once at startup and once more for
    every time [Main] logged that it died, and [Main] sleeps exactly once
    per restart of the XMPP task, for one second each time: there is no
    sleep for a restart of the Gateway or of the HTTP task. *)
Theorem restarts_logged_and_paced cfg (w : W) s :
  reachable cfg w (Ok tt s) →
  (∀ t, starts t (trace s) = S (restarts t (trace s)))
  ∧ sleeps (trace s) = replicate (restarts Xmpp (trace s)) Second.
Proof.
  intros Hr. pose proof (reachable_supervised _ _ _ Hr) as Hsup.
  split; [apply (sup_restarts _ Hsup)|apply (sup_sleeps _ Hsup)].
Qed.

(** X9.  What of the Component can change, and where.  No step of the program
    changes the configuration, the mutex field or the three channels of the
    Component.  The receipt table and the collaborators are changed only
    by a turn of the Gateway: [Main]'s restarts, the boundary tasks and the
    end of a task leave them as they are, and so does a turn that ends in a
    panic. *)
Theorem component_changes_only_in_gateway_turn l (s : Sys W) p :
  step l s = Some p →
  config (sc (state_of p)) = config (sc s)
  ∧ receiptForMutex (sc (state_of p)) = receiptForMutex (sc s)
  ∧ rxSmsCh (sc (state_of p)) = rxSmsCh (sc s)
  ∧ rxXmppCh (sc (state_of p)) = rxXmppCh (sc s)
  ∧ txXmppCh (sc (state_of p)) = txXmppCh (sc s)
  ∧ ((∀ h, l ≠ GwRecvSms h) → (∀ h, l ≠ GwRecvXmpp h) →
       receiptFor (sc (state_of p)) = receiptFor (sc s) ∧ world (state_of p) = world s)
  ∧ (∀ s1, p = Panicked s1 →
       receiptFor (sc s1) = receiptFor (sc s) ∧ world s1 = world s).
Proof.
  intros Hs. destruct (step_frame _ _ _ Hs) as (Hsc & _ & _ & Hst).
  rewrite Hsc. simpl. repeat split; try done.
  - by apply (f_equal st_receiptFor) in Hst.
  - by apply (f_equal st_world) in Hst.
  - subst p. destruct (step_Panicked_inv _ _ _ Hs)
      as [(h & g & ev & q & fmt & args & -> & _ & _ & _ & _ & _ & _ & Hst' & _)
         |(prov & e & -> & _ & _ & _ & _ & Hst' & _)];
      by apply (f_equal st_receiptFor) in Hst'.
  - subst p. destruct (step_Panicked_inv _ _ _ Hs)
      as [(h & g & ev & q & fmt & args & -> & _ & _ & _ & _ & _ & _ & Hst' & _)
         |(prov & e & -> & _ & _ & _ & _ & Hst' & _)];
      by apply (f_equal st_world) in Hst'.
Qed.

(** X10.  A restart touches one task only.  When [Main] restarts task [t], the
    incarnations of the other two tasks and the channels [Main] watches for
    them are as before, no channel is closed, the senders blocked on the
    channels of the Component stay where they are, and the table is not
    changed; this holds also when the restart of the HTTP task ends the
    program for want of a provider. *)
Theorem restart_leaves_other_tasks t (s : Sys W) p :
  step (select_case t) s = Some p →
  watched t s ∈ closed s
  ∧ (∀ t', t' ≠ t → alive t' (state_of p) = alive t' s
                    ∧ watched t' (state_of p) = watched t' s)
  ∧ closed (state_of p) = closed s
  ∧ smsQ (state_of p) = smsQ s ∧ xmppQ (state_of p) = xmppQ s
  ∧ errQ (state_of p) = errQ s
  ∧ store (state_of p) = store s.
Proof.
  intros Hs. destruct t; simpl in Hs.
  - apply (step_Main_inv MainGateway) in Hs as [Hc ->]; [|by left].
    destruct (Main_gatewayDead_spec s)
      as (s' & -> & _ & _ & _ & _ & Hsc & Hw & Hcl & Hsq & Hxq & Heq & Hx & Hh & Hxd & Hhd).
    simpl. unfold store. rewrite Hsc, Hw, Hcl, Hsq, Hxq, Heq.
    repeat split; try done; destruct t'; simpl; congruence.
  - apply (step_Main_inv MainHttp) in Hs as [Hc ->]; [|by right; left].
    destruct (SmsProvider (config (sc s))) as [prov [e|]] eqn:Hp.
    + unfold Main_httpDead, runHttpProcess, bind, get, emit, modify. simpl.
      rewrite Hp. simpl. repeat split; try done; destruct t'; simpl; congruence.
    + destruct (Main_httpDead_spec s prov Hp)
        as (s' & -> & _ & _ & _ & _ & Hsc & Hw & Hcl & Hsq & Hxq & Heq & Hg & Hx & Hgd & Hxd).
      simpl. unfold store. rewrite Hsc, Hw, Hcl, Hsq, Hxq, Heq.
      repeat split; try done; destruct t'; simpl; congruence.
  - apply (step_Main_inv MainXmpp) in Hs as [Hc ->]; [|by right; right].
    destruct (Main_xmppDead_spec s)
      as (s' & -> & _ & _ & _ & _ & Hsc & Hw & Hcl & Hsq & Hxq & Heq & Hg & Hh & Hgd & Hhd).
    simpl. unfold store. rewrite Hsc, Hw, Hcl, Hsq, Hxq, Heq.
    repeat split; try done; destruct t'; simpl; congruence.
Qed.

(** X11.  Line 82.  However a turn of the Gateway ends, [Main] can tell: the
    health channel of an incarnation is closed by a turn exactly when that
    turn ends the incarnation, be it by the return of line 105 or by a
    panic; a turn after which the loop goes round leaves the channel
    open. *)
Theorem gateway_end_is_signalled l (s : Sys W) h g p :
  l = GwRecvSms h ∨ l = GwRecvXmpp h →
  find_gateway h s = Some g →
  h ∉ closed s →
  step l s = Some p →
  (find_gateway h (state_of p) = None ↔ h ∈ closed (state_of p))
  ∧ (find_gateway h (state_of p) = None ∨ find_gateway h (state_of p) = Some g)
  ∧ (∀ s1, p = Panicked s1 → h ∈ closed s1).
Proof.
  intros Hl Hg Hopen Hs.
  apply find_gateway_health in Hg as Hh. destruct Hh as [Hh _].
  assert (Hturn : ∃ r s0, p = gateway_turn g r s0 ∧ closed s0 = closed s
                          ∧ gateways s0 = gateways s).
  { destruct Hl as [-> | ->]; simpl in Hs; rewrite Hg in Hs; simpl in Hs.
    - destruct (dequeue (g_rxSmsCh g) (smsQ s)) as [[ev q]|]; simpl in Hs; [|done].
      injection Hs as <-. by eexists _, (set_smsQ q s).
    - destruct (dequeue (g_rxXmppCh g) (xmppQ s)) as [[msg q]|]; simpl in Hs; [|done].
      injection Hs as <-. by eexists _, (set_xmppQ q s). }
  destruct Hturn as ([[st' acts] c] & s0 & -> & Hc0 & Hg0).
  destruct (gateway_turn_spec g st' acts c s0) as (s' & -> & _ & Hc & Hgs & _).
  assert (Hgone : find_gateway h
                    (set_gateways (filter (λ g', g_healthCh g' ≠ h) (gateways s)) s') = None)
    by apply find_gateway_gone.
  unfold find_gateway in Hgone. simpl in Hgone.
  destruct c; simpl; unfold find_gateway; rewrite Hgs, Hc, Hg0, Hc0, ?Hh.
  - fold (find_gateway h s). rewrite Hg. split; [split; [done|by intros ?]|].
    split; [by right|done].
  - rewrite Hgone. split; [split; [intros _|done]|].
    + apply elem_of_union_l. by apply elem_of_singleton.
    + split; [by left|done].
  - rewrite Hgone. split; [split; [intros _|done]|].
    + apply elem_of_union_l. by apply elem_of_singleton.
    + split; [by left|]. intros s1 [= <-]. rewrite Hc, Hc0, Hh.
      apply elem_of_union_l. by apply elem_of_singleton.
Qed.


End Supervision.

(** ** The ignore outcome *)

Section IgnoreOutcome.
Context {P : Type} `{collab : Collaborators P}.
#[local] Existing Instance spec_handlers.






End IgnoreOutcome.

Import Demo.

(** C1 fails as stated: after the Gateway died on the second message and
    was restarted, the entry for T1 is still in the table. *)
Lemma restart_keeps_entries :
  reachable config world0 (Ok tt (state_after two_messages))
  ∧ gatewayDead (state_after two_messages) ∈ closed (state_after two_messages)
  ∧ step MainGateway (state_after two_messages)
    = Some (Ok tt (state_after (two_messages ++ [MainGateway])))
  ∧ receiptFor (sc (state_after (two_messages ++ [MainGateway]))) !! "T1"
    = Some (receipt_for alice_hello)
  ∧ ¬ restart_empties_table (handlers := Demo.handlers) config world0.
Proof.
  assert (Hr : reachable config world0 (Ok tt (state_after two_messages))).
  { apply (run_reachable _ _ two_messages (Main config world0)); [constructor|].
    vm_compute. reflexivity. }
  split; [exact Hr|].
  split; [vm_compute; reflexivity|].
  split; [vm_compute; reflexivity|].
  split; [vm_compute; reflexivity|].
  intros Hclaim.
  specialize (Hclaim (state_after two_messages)
                (state_after (two_messages ++ [MainGateway])) Hr).
  assert (He : receiptFor (sc (state_after (two_messages ++ [MainGateway]))) !! "T1" = None).
  { rewrite Hclaim; [done| |]; vm_compute; reflexivity. }
  vm_compute in He. discriminate.
Qed.

(** The same run: the table after the restart is the table before it. *)
Lemma gateway_restart_keeps_table_witness :
  receiptFor (sc (state_after (two_messages ++ [MainGateway])))
  = receiptFor (sc (state_after two_messages))
  ∧ receiptFor (sc (state_after two_messages)) !! "T1" = Some (receipt_for alice_hello).
Proof.
  split; [|vm_compute; reflexivity].
  apply (gateway_restart_keeps_table (handlers := Demo.handlers) config world0
           (state_after two_messages) (state_after (two_messages ++ [MainGateway]))).
  - apply (run_reachable _ _ two_messages (Main config world0)); [constructor|].
    vm_compute. reflexivity.
  - vm_compute. reflexivity.
Defined.

(** C2 fails as stated: on status 7 the step of the Gateway ends the
    program, and [Main] cannot take its restart step afterwards. *)
Lemma unknown_status_stops_demo :
  reachable config world0 (Ok tt (state_after [HttpSend 6%nat (EvStatus "T1" 7)]))
  ∧ (∃ s1, step (GwRecvSms 4%nat) (state_after [HttpSend 6%nat (EvStatus "T1" 7)])
           = Some (Panicked s1))
  ∧ run [HttpSend 6%nat (EvStatus "T1" 7); GwRecvSms 4%nat; MainGateway]
        (Main config world0) = None
  ∧ ¬ unknown_status_restarts_gateway (handlers := Demo.handlers) config world0.
Proof.
  assert (Hr : reachable config world0
                 (Ok tt (state_after [HttpSend 6%nat (EvStatus "T1" 7)]))).
  { apply (run_reachable _ _ [HttpSend 6%nat (EvStatus "T1" 7)] (Main config world0));
      [constructor|]. vm_compute. reflexivity. }
  split; [exact Hr|].
  split; [eexists; vm_compute; reflexivity|].
  split; [vm_compute; reflexivity|].
  intros Hclaim.
  pose (s := state_after [HttpSend 6%nat (EvStatus "T1" 7)]).
  destruct (Hclaim s 4%nat
              {| g_healthCh := 4%nat; g_rxSmsCh := 1%nat; g_rxXmppCh := 2%nat |}
              "T1" 7 7%nat (<[1%nat := []]> (smsQ s))) as (s1 & s2 & Hs1 & _).
  - exact Hr.
  - vm_compute. reflexivity.
  - vm_compute. reflexivity.
  - vm_compute. discriminate.
  - vm_compute in Hs1. discriminate.
Qed.

(** Status 7 for T1 in the demo. *)
Lemma unknown_status_ends_program_witness :
  ∃ s1, step (GwRecvSms 4%nat) (state_after [HttpSend 6%nat (EvStatus "T1" 7)])
        = Some (Panicked s1)
        ∧ run [HttpSend 6%nat (EvStatus "T1" 7); GwRecvSms 4%nat; MainGateway]
              (Main config world0) = None.
Proof.
  destruct (unknown_status_ends_program (handlers := Demo.handlers)
              (state_after [HttpSend 6%nat (EvStatus "T1" 7)]) 4%nat
              {| g_healthCh := 4%nat; g_rxSmsCh := 1%nat; g_rxXmppCh := 2%nat |}
              "T1" 7 7%nat
              (<[1%nat := []]> (smsQ (state_after [HttpSend 6%nat (EvStatus "T1" 7)]))))
    as (s1 & Hs1 & _).
  - vm_compute. reflexivity.
  - vm_compute. reflexivity.
  - vm_compute. discriminate.
  - exists s1. split; [exact Hs1|]. vm_compute. reflexivity.
Defined.

(** An SMS without sender is answered with an error and the Gateway stays;
    a message with an empty body ends the Gateway. *)
Lemma gateway_error_policy_witness :
  (∃ s', step (GwRecvSms 4%nat) (state_after [HttpSend 6%nat (EvMessage sms_no_sender)])
         = Some (Ok tt s')
         ∧ errQ s' !! 7%nat = Some [Some (ErrOther "empty phone number")]
         ∧ gateways s' = gateways (state_after [HttpSend 6%nat (EvMessage sms_no_sender)]))
  ∧ (∃ s', step (GwRecvXmpp 4%nat) (state_after [XmppSend 5%nat alice_empty])
           = Some (Ok tt s')
           ∧ find_gateway 4%nat s' = None).
Proof.
  split.
  - destruct (gateway_error_policy (handlers := Demo.handlers)
                (state_after [HttpSend 6%nat (EvMessage sms_no_sender)]) 4%nat
                {| g_healthCh := 4%nat; g_rxSmsCh := 1%nat; g_rxXmppCh := 2%nat |})
      as [Hsms _]; [vm_compute; reflexivity|].
    destruct (Hsms sms_no_sender 7%nat
                (<[1%nat := []]> (smsQ (state_after [HttpSend 6%nat (EvMessage sms_no_sender)])))
                (ErrOther "empty phone number")
                (store (state_after [HttpSend 6%nat (EvMessage sms_no_sender)])))
      as (s' & Hs' & _ & Herr & Hgs & _); [vm_compute; reflexivity..|].
    exists s'. split; [exact Hs'|]. split; [|exact Hgs].
    rewrite Herr. vm_compute. reflexivity.
  - destruct (gateway_error_policy (handlers := Demo.handlers)
                (state_after [XmppSend 5%nat alice_empty]) 4%nat
                {| g_healthCh := 4%nat; g_rxSmsCh := 1%nat; g_rxXmppCh := 2%nat |})
      as [_ Hxmpp]; [vm_compute; reflexivity|].
    destruct (Hxmpp alice_empty
                (<[2%nat := []]> (xmppQ (state_after [XmppSend 5%nat alice_empty])))
                (ErrOther "empty body")
                (store (state_after [XmppSend 5%nat alice_empty])))
      as (s' & Hs' & _ & _ & Hgone); [vm_compute; reflexivity..|discriminate|].
    exists s'. split; [exact Hs'|exact Hgone].
Defined.

(** C8 fails as stated: without a provider the program stops with the
    Gateway and the XMPP task already started. *)
Lemma no_provider_two_tasks_started :
  (∃ s, Main config_no_provider world0 = Panicked s
        ∧ trace s = [Start Gateway 4%nat; Start Xmpp 5%nat;
                     Panicking "Couldn't choose an SMS provider: %s"
                       [ArgErr (ErrOther "no provider configured")]]
        ∧ gateways s ≠ [] ∧ xmpps s ≠ [])
  ∧ ¬ no_provider_aborts_before_tasks config_no_provider world0.
Proof.
  split.
  - eexists. split; [vm_compute; reflexivity|]. simpl. repeat split; discriminate.
  - intros Hclaim.
    destruct (Hclaim "" (ErrOther "no provider configured")) as (s & Hs & Hg & _);
      [reflexivity|].
    vm_compute in Hs. injection Hs as <-. discriminate.
Qed.

(** The configuration without provider. *)
Lemma no_provider_aborts_when_http_starts_witness :
  ∃ s, Main config_no_provider world0 = Panicked s
       ∧ length (gateways s) = 1%nat ∧ length (xmpps s) = 1%nat ∧ https s = [].
Proof.
  destruct (no_provider_aborts_when_http_starts
              config_no_provider world0 "" (ErrOther "no provider configured"))
    as (s & Hs & _ & Hg & (x & Hx & _) & Hh & _); [reflexivity|].
  exists s. split; [exact Hs|]. rewrite Hg, Hx. repeat split. exact Hh.
Defined.



(** A Delivered status for T1: the handler is blocked until the Gateway
    has posted the one outcome on reply channel 7. *)
Lemma one_outcome_per_sms_event_witness :
  step (HttpRecvErr 7%nat) (state_after status_delivered) = None
  ∧ ∃ s', step (GwRecvSms 4%nat) (state_after status_delivered) = Some (Ok tt s')
          ∧ errQ s' !! 7%nat = Some [None]
          ∧ posted (trace s') = [7%nat].
Proof.
  destruct (one_outcome_per_sms_event (handlers := Demo.handlers) config world0
              (state_after status_delivered) 4%nat
              {| g_healthCh := 4%nat; g_rxSmsCh := 1%nat; g_rxXmppCh := 2%nat |}
              (rxSmsStatus "T1" 0 7%nat)
              (<[1%nat := []]> (smsQ (state_after status_delivered))))
    as (_ & _ & Hblocked & s' & Hs' & _ & Hposted & _ & Herr & _).
  - apply (run_reachable _ _ status_delivered (Main config world0)); [constructor|].
    vm_compute. reflexivity.
  - vm_compute. reflexivity.
  - vm_compute. reflexivity.
  - reflexivity.
  - split; [exact Hblocked|]. exists s'. split; [exact Hs'|].
    split; [exact Herr|]. rewrite Hposted. reflexivity.
Defined.

(** The second sender, blocked when the Gateway died, is served by the
    new incarnation. *)
Lemma channels_made_once_witness :
  ∃ g', find_gateway 7%nat (state_after (sender_waits ++ [MainGateway])) = Some g'
        ∧ g_rxXmppCh g' = 2%nat
        ∧ dequeue (g_rxXmppCh g') (xmppQ (state_after (sender_waits ++ [MainGateway])))
          = Some (alice_hello, <[2%nat := []]> (xmppQ (state_after sender_waits))).
Proof.
  destruct (channels_made_once (handlers := Demo.handlers) config world0
              (state_after sender_waits)) as (_ & _ & _ & _ & _ & Hrestart).
  - apply (run_reachable _ _ sender_waits (Main config world0)); [constructor|].
    vm_compute. reflexivity.
  - destruct (Hrestart (state_after (sender_waits ++ [MainGateway])))
      as (_ & _ & g' & Hfind & _ & Hrx & _ & Hserve); [vm_compute; reflexivity|].
    exists g'. split; [exact Hfind|]. split; [rewrite Hrx; reflexivity|].
    apply (Hserve alice_hello []). vm_compute. reflexivity.
Defined.

(** Two activities remove T1 and T2; the second runs first.  Each gets its
    own receipt and the table ends without both. *)
Lemma table_safe_under_concurrent_use_witness :
  ∃ st, act_run [1; 1; 1; 1; 0; 0; 0; 0]%nat
          (start two_receipts [takeIfPresent "T1"; takeIfPresent "T2"]) = Some st
        ∧ sh_acts st = [mkActivity (takeIfPresent "T1") (Finished (Some (receipt_for alice_hello)));
                        mkActivity (takeIfPresent "T2") (Finished (Some (receipt_for alice_empty)))]
        ∧ sh_table st !! "T1" = None ∧ sh_table st !! "T2" = None.
Proof.
  destruct (act_run [1; 1; 1; 1; 0; 0; 0; 0]%nat
              (start two_receipts [takeIfPresent "T1"; takeIfPresent "T2"]))
    as [st|] eqn:Hrun; [|vm_compute in Hrun; discriminate].
  exists st. split; [reflexivity|].
  destruct (table_safe_under_concurrent_use (collab := Demo.collab)) as (_ & Htakes & _).
  destruct (Htakes two_receipts ["T1"; "T2"] [1; 1; 1; 1; 0; 0; 0; 0]%nat st)
    as (_ & _ & Hfin).
  - repeat constructor; set_solver.
  - intros id Hin. vm_compute.
    apply elem_of_cons in Hin as [->|Hin]; [vm_compute; eauto|].
    apply list_elem_of_singleton in Hin as ->. vm_compute. eauto.
  - exact Hrun.
  - destruct Hfin as [Hacts Hgone].
    + vm_compute in Hrun. injection Hrun as <-. repeat constructor.
    + split; [rewrite Hacts; reflexivity|].
      split; apply Hgone; set_solver.
Defined.

(** The demo configuration: three tasks on channels 4, 5 and 6. *)
Lemma Main_starts_every_task_witness :
  ∃ s, Main config world0 = Ok tt s
       ∧ trace s = [Start Gateway 4%nat; Start Xmpp 5%nat; Start Http 6%nat]
       ∧ receiptFor (sc s) = ∅.
Proof.
  destruct (Main_starts_every_task config world0 "twilio")
    as (s & Hs & Hrec & _ & _ & Ht & _); [reflexivity|].
  exists s. split; [exact Hs|]. split; [|exact Hrec].
  rewrite Ht. vm_compute in Hs. injection Hs as <-. reflexivity.
Defined.

(** With credentials configured, the HTTP process that [Main] builds for
    the restart carries them, and the restarted XMPP process is built like
    the first. *)
Lemma incarnations_built_from_config_witness :
  ∃ s, run boundaries_restarted (Main config_auth world0) = Some (Ok tt s)
       ∧ https s = [{| h_host := "127.0.0.1"; h_port := 9677; h_provider := "twilio";
                       h_rxSmsCh := 1%nat; h_auth := Some ("gateway", "hunter2");
                       h_healthCh := 8%nat |}]
       ∧ Forall (λ x, x_secret x = "secret" ∧ gatewayRx x = 2%nat) (xmpps s).
Proof.
  destruct (run boundaries_restarted (Main config_auth world0))
    as [[[] s|s]|] eqn:Hrun; try (vm_compute in Hrun; discriminate).
  exists s. split; [reflexivity|].
  destruct (incarnations_built_from_config (handlers := Demo.handlers)
              config_auth world0 (Ok tt s)) as (_ & Hx & Hh).
  - apply (run_reachable _ _ boundaries_restarted (Main config_auth world0));
      [constructor|exact Hrun].
  - split.
    + vm_compute in Hrun. injection Hrun as <-. reflexivity.
    + eapply Forall_impl; [exact Hx|]. intros x ->. simpl. split; [reflexivity|].
      vm_compute in Hrun. injection Hrun as <-. reflexivity.
Defined.

(** A value of an unexpected type from the HTTP side ends the program. *)
Lemma unexpected_rxSms_type_ends_program_witness :
  ∃ s1, step (GwRecvSms 4%nat) (state_after other_event) = Some (Panicked s1)
        ∧ closes (trace s1) = [4%nat]
        ∧ posted (trace s1) = [].
Proof.
  destruct (unexpected_rxSms_type_ends_program (handlers := Demo.handlers)
              (state_after other_event) 4%nat
              {| g_healthCh := 4%nat; g_rxSmsCh := 1%nat; g_rxXmppCh := 2%nat |}
              7%nat (<[1%nat := []]> (smsQ (state_after other_event))))
    as (s1 & Hs1 & Ht & _ & Hp & _); [vm_compute; reflexivity..|].
  exists s1. split; [exact Hs1|]. split; [rewrite Ht|rewrite Hp]; vm_compute; reflexivity.
Defined.

(** A message that is sent leaves no trace; one that the provider refuses
    ends the Gateway. *)
Lemma xmpp_turn_outcome_witness :
  (∃ s', step (GwRecvXmpp 4%nat) (state_after [XmppSend 5%nat alice_hello]) = Some (Ok tt s')
         ∧ trace s' = trace (state_after [XmppSend 5%nat alice_hello])
         ∧ is_Some (receiptFor (sc s') !! "T1"))
  ∧ (∃ s', step (GwRecvXmpp 4%nat) (state_after [XmppSend 5%nat alice_empty]) = Some (Ok tt s')
           ∧ 4%nat ∈ closed s').
Proof.
  split.
  - destruct (xmpp_turn_outcome (handlers := Demo.handlers)
                (state_after [XmppSend 5%nat alice_hello]) 4%nat
                {| g_healthCh := 4%nat; g_rxSmsCh := 1%nat; g_rxXmppCh := 2%nat |}
                alice_hello
                (<[2%nat := []]> (xmppQ (state_after [XmppSend 5%nat alice_hello]))))
      as (s' & Hs' & Hst & _ & _ & _ & _ & Hnil & _); [vm_compute; reflexivity..|].
    exists s'. split; [exact Hs'|].
    destruct Hnil as (Ht & _); [vm_compute; reflexivity|]. split; [exact Ht|].
    apply (f_equal st_receiptFor) in Hst. simpl in Hst. rewrite Hst.
    vm_compute. eauto.
  - destruct (xmpp_turn_outcome (handlers := Demo.handlers)
                (state_after [XmppSend 5%nat alice_empty]) 4%nat
                {| g_healthCh := 4%nat; g_rxSmsCh := 1%nat; g_rxXmppCh := 2%nat |}
                alice_empty
                (<[2%nat := []]> (xmppQ (state_after [XmppSend 5%nat alice_empty]))))
      as (s' & Hs' & _ & _ & _ & _ & _ & _ & Herr); [vm_compute; reflexivity..|].
    exists s'. split; [exact Hs'|].
    destruct (Herr (ErrOther "empty body")) as (_ & Hc & _); [vm_compute; reflexivity|].
    rewrite Hc. apply elem_of_union_l. by apply elem_of_singleton.
Defined.

(** Without a provider the program ends at startup on the panic of
    [runHttpProcess]. *)
Lemma panics_only_from_two_places_witness :
  ∃ s1, Main config_no_provider world0 = Panicked s1
        ∧ last (trace s1)
          = Some (Panicking "Couldn't choose an SMS provider: %s"
                    [ArgErr (ErrOther "no provider configured")]).
Proof.
  destruct (Main config_no_provider world0)
    as [[] s|s1] eqn:HM; [vm_compute in HM; discriminate|].
  exists s1. split; [reflexivity|].
  destruct (panics_only_from_two_places (handlers := Demo.handlers)) as [Hmain _].
  destruct (Hmain config_no_provider world0 s1 HM) as (e & He & Hl).
  rewrite Hl. vm_compute in He. by injection He as <-.
Defined.

(** After every task was restarted once: health channels 4, 5 and 6 were
    closed, once each. *)
Lemma health_channels_closed_once_witness :
  closes (trace (state_after all_restarted)) = [4%nat; 5%nat; 6%nat]
  ∧ NoDup (closes (trace (state_after all_restarted)))
  ∧ ∃ t, 4%nat ∈ started t (trace (state_after all_restarted)).
Proof.
  destruct (health_channels_closed_once (handlers := Demo.handlers) config world0
              (state_after all_restarted)) as (Hnd & _ & Hst & _).
  - apply (run_reachable _ _ all_restarted (Main config world0)); [constructor|].
    vm_compute. reflexivity.
  - split; [vm_compute; reflexivity|]. split; [exact Hnd|].
    apply Hst. vm_compute. reflexivity.
Defined.

(** The Gateway was started on channel 4 and, after it ended, on channel 7,
    which [Main] watches and which is open. *)
Lemma one_incarnation_per_task_witness :
  started Gateway (trace (state_after all_restarted)) = [4%nat; 7%nat]
  ∧ last (started Gateway (trace (state_after all_restarted)))
    = Some (watched Gateway (state_after all_restarted))
  ∧ watched Gateway (state_after all_restarted) = 7%nat
  ∧ 4%nat ∈ closed (state_after all_restarted)
  ∧ alive Gateway (state_after all_restarted) = [7%nat].
Proof.
  destruct (one_incarnation_per_task (handlers := Demo.handlers) config world0
              (state_after all_restarted) Gateway) as (Hl & _ & Ho & Ha).
  - apply (run_reachable _ _ all_restarted (Main config world0)); [constructor|].
    vm_compute. reflexivity.
  - split; [vm_compute; reflexivity|]. split; [exact Hl|].
    split; [vm_compute; reflexivity|]. split.
    + apply Ho; [|vm_compute; discriminate].
      vm_compute. apply elem_of_cons. by left.
    + rewrite Ha. vm_compute. reflexivity.
Defined.

(** After every task was restarted once: two starts of each, and one sleep
    of a second. *)
Lemma restarts_logged_and_paced_witness :
  starts Gateway (trace (state_after all_restarted)) = 2%nat
  ∧ starts Xmpp (trace (state_after all_restarted)) = 2%nat
  ∧ sleeps (trace (state_after all_restarted)) = [1000000000].
Proof.
  destruct (restarts_logged_and_paced (handlers := Demo.handlers) config world0
              (state_after all_restarted)) as (Hst & Hsl).
  - apply (run_reachable _ _ all_restarted (Main config world0)); [constructor|].
    vm_compute. reflexivity.
  - split; [rewrite Hst; vm_compute; reflexivity|].
    split; [rewrite Hst; vm_compute; reflexivity|].
    rewrite Hsl. vm_compute. reflexivity.
Defined.

(** The restart of the Gateway after [two_messages] leaves the entry for T1
    in the table and the SMS channel as it is. *)
Lemma component_changes_only_in_gateway_turn_witness :
  rxSmsCh (sc (state_after (two_messages ++ [MainGateway]))) = 1%nat
  ∧ receiptFor (sc (state_after (two_messages ++ [MainGateway])))
    = receiptFor (sc (state_after two_messages)).
Proof.
  assert (Hframe : ∀ s s', step MainGateway s = Some (Ok tt s') →
                     rxSmsCh (sc s') = rxSmsCh (sc s)
                     ∧ receiptFor (sc s') = receiptFor (sc s)).
  { intros s s' Hs.
    destruct (component_changes_only_in_gateway_turn (handlers := Demo.handlers)
                MainGateway s (Ok tt s') Hs) as (_ & _ & Hc & _ & _ & Hst & _).
    split; [exact Hc|]. apply Hst; discriminate. }
  destruct (Hframe (state_after two_messages) (state_after (two_messages ++ [MainGateway])))
    as [Hc Hst]; [vm_compute; reflexivity|].
  split; [|exact Hst]. rewrite Hc. vm_compute. reflexivity.
Defined.

(** The restart of the Gateway after [two_messages]: the XMPP and the HTTP
    task run on as before. *)
Lemma restart_leaves_other_tasks_witness :
  alive Xmpp (state_after (two_messages ++ [MainGateway])) = [5%nat]
  ∧ alive Http (state_after (two_messages ++ [MainGateway])) = [6%nat]
  ∧ closed (state_after (two_messages ++ [MainGateway])) = closed (state_after two_messages).
Proof.
  assert (Hothers : ∀ s s', step MainGateway s = Some (Ok tt s') →
                      alive Xmpp s' = alive Xmpp s ∧ alive Http s' = alive Http s
                      ∧ closed s' = closed s).
  { intros s s' Hs.
    destruct (restart_leaves_other_tasks (handlers := Demo.handlers) Gateway s (Ok tt s') Hs)
      as (_ & Ho & Hc & _).
    split; [by apply (Ho Xmpp)|]. split; [by apply (Ho Http)|exact Hc]. }
  destruct (Hothers (state_after two_messages) (state_after (two_messages ++ [MainGateway])))
    as (Hx & Hh & Hc); [vm_compute; reflexivity|].
  split; [rewrite Hx; vm_compute; reflexivity|].
  split; [rewrite Hh; vm_compute; reflexivity|exact Hc].
Defined.

(** A message the provider refuses: the incarnation on channel 4 is gone
    and channel 4 is closed. *)
Lemma gateway_end_is_signalled_witness :
  ∃ s', step (GwRecvXmpp 4%nat) (state_after [XmppSend 5%nat alice_empty]) = Some (Ok tt s')
        ∧ find_gateway 4%nat s' = None ∧ 4%nat ∈ closed s'.
Proof.
  assert (Hsig : ∀ s s' g, find_gateway 4%nat s = Some g → 4%nat ∉ closed s →
                   step (GwRecvXmpp 4%nat) s = Some (Ok tt s') →
                   find_gateway 4%nat s' = None → 4%nat ∈ closed s').
  { intros s s' g Hg Ho Hs.
    destruct (gateway_end_is_signalled (handlers := Demo.handlers)
                (GwRecvXmpp 4%nat) s 4%nat g (Ok tt s')) as ([Hsig _] & _); auto. }
  destruct (step (GwRecvXmpp 4%nat) (state_after [XmppSend 5%nat alice_empty]))
    as [[[] s'|s']|] eqn:Hs; try (vm_compute in Hs; discriminate).
  exists s'. split; [reflexivity|].
  assert (Hgone : find_gateway 4%nat s' = None).
  { vm_compute in Hs. injection Hs as <-. reflexivity. }
  split; [exact Hgone|].
  apply (Hsig (state_after [XmppSend 5%nat alice_empty]) s'
           {| g_healthCh := 4%nat; g_rxSmsCh := 1%nat; g_rxXmppCh := 2%nat |});
    [vm_compute; reflexivity|vm_compute; discriminate|exact Hs|exact Hgone].
Defined.

